(** * Absensi Sederhana: a shallow embedding of [app.py]

    The application keeps two SQLite tables, [employees] and
    [attendance_overrides], and derives attendance reports from them.  Every
    employee is present (MASUK) by default; only day-off (LIBUR) exceptions are
    stored.

    The embedding follows the source function by function:
    - Python [str] values are sequences of Unicode code points; SQLite compares
      TEXT with the BINARY collation, which on UTF-8 is the code point order,
      and so does Python on [str];
    - [datetime.date] is a record with the proleptic Gregorian ordinal of the
      standard library;
    - a database is the pair of tables (rows in rowid order) together with
      the two AUTOINCREMENT counters of [sqlite_sequence];
    - [execute] runs one statement and commits; a statement that raises
      leaves the database as it was;
    - [datetime.now()] is a parameter of the operations that read the clock.

    Row identifiers are unbounded integers (SQLite's are 64-bit; the counter
    only grows by one per statement), and an identifier passed as a
    parameter is one that sqlite3 can bind. *)

From Stdlib Require Import ZArith List Bool Lia String Ascii DecimalString.
From Stdlib Require Import Sorting.Sorted Sorting.Permutation.
Import ListNotations.
Open Scope Z_scope.

(** ** Text *)

(** A Python [str]: the list of its code points. *)
Definition str := list Z.

(** A literal of the source, all of whose characters are ASCII. *)
Definition py (s : string) : str :=
  map (fun c => Z.of_N (N_of_ascii c)) (list_ascii_of_string s).

(** Lexicographic comparison by code point: [memcmp] on UTF-8 in SQLite,
    [<] on [str] in Python. *)
Fixpoint str_compare (a b : str) : comparison :=
  match a, b with
  | [], [] => Eq
  | [], _ :: _ => Lt
  | _ :: _, [] => Gt
  | x :: a', y :: b' =>
      match x ?= y with
      | Eq => str_compare a' b'
      | c => c
      end
  end.

Definition str_leb (a b : str) : bool :=
  match str_compare a b with Gt => false | _ => true end.

Definition str_eqb (a b : str) : bool :=
  match str_compare a b with Eq => true | _ => false end.

Definition str_le (a b : str) : Prop := str_leb a b = true.

(** [s.isspace()] for one character: the code points CPython classifies as
    whitespace. *)
Definition isspace (c : Z) : bool :=
  ((9 <=? c) && (c <=? 13)) || ((28 <=? c) && (c <=? 32))
  || (c =? 133) || (c =? 160) || (c =? 5760)
  || ((8192 <=? c) && (c <=? 8202))
  || (c =? 8232) || (c =? 8233) || (c =? 8239) || (c =? 8287) || (c =? 12288).

Fixpoint lstrip (s : str) : str :=
  match s with
  | [] => []
  | c :: s' => if isspace c then lstrip s' else s
  end.

(** [s.strip()] *)
Definition strip (s : str) : str := rev (lstrip (rev (lstrip s))).

(** Truth value of a sequence: empty is false. *)
Definition is_empty {A : Type} (l : list A) : bool :=
  match l with [] => true | _ => false end.

(** [s or None] *)
Definition or_none (s : str) : option str :=
  if is_empty s then None else Some s.

(** ** Exceptions *)

Inductive exn : Type :=
| IntegrityError (msg : string)
| ValueError (msg : string)
| OverflowError (msg : string)
| AttributeError (msg : string).

Inductive result (A : Type) : Type :=
| Ok (a : A)
| Raise (e : exn).

Arguments Ok {A} a.
Arguments Raise {A} e.

Definition rbind {A B : Type} (r : result A) (k : A -> result B) : result B :=
  match r with
  | Ok a => k a
  | Raise e => Raise e
  end.

Declare Scope result_scope.
Delimit Scope result_scope with result.
Notation "x <- r ;; k" := (rbind r (fun x => k))
  (at level 61, r at next level, right associativity) : result_scope.

(** ** Dates: [datetime.date] *)

Record date : Type := mkdate { year : Z; month : Z; day : Z }.

Definition MINYEAR : Z := 1.
Definition MAXYEAR : Z := 9999.

Definition is_leap (y : Z) : bool :=
  (y mod 4 =? 0) && (negb (y mod 100 =? 0) || (y mod 400 =? 0)).

Definition DAYS_IN_MONTH : list Z :=
  [-1; 31; 28; 31; 30; 31; 30; 31; 31; 30; 31; 30; 31].

Definition DAYS_BEFORE_MONTH : list Z :=
  [-1; 0; 31; 59; 90; 120; 151; 181; 212; 243; 273; 304; 334].

Definition days_in_month (y m : Z) : Z :=
  if (m =? 2) && is_leap y then 29 else nth (Z.to_nat m) DAYS_IN_MONTH (-1).

Definition days_before_year (y : Z) : Z :=
  let y := y - 1 in
  y * 365 + y / 4 - y / 100 + y / 400.

Definition days_before_month (y m : Z) : Z :=
  nth (Z.to_nat m) DAYS_BEFORE_MONTH (-1)
  + (if (2 <? m) && is_leap y then 1 else 0).

(** The fields checked by the constructor [date(year, month, day)]. *)
Definition valid_date (d : date) : bool :=
  (MINYEAR <=? year d) && (year d <=? MAXYEAR)
  && (1 <=? month d) && (month d <=? 12)
  && (1 <=? day d) && (day d <=? days_in_month (year d) (month d)).

(** The C types the constructor converts its arguments to (a 64-bit
    platform). *)
Definition INT_MIN : Z := -2147483648.
Definition INT_MAX : Z := 2147483647.
Definition LONG_MIN : Z := -9223372036854775808.
Definition LONG_MAX : Z := 9223372036854775807.

(** Conversion of an argument to a C [int]. *)
Definition as_c_int (v : Z) : result Z :=
  if (v <? LONG_MIN) || (LONG_MAX <? v) then
    Raise (OverflowError "Python int too large to convert to C long")
  else if INT_MAX <? v then
    Raise (OverflowError "signed integer is greater than maximum")
  else if v <? INT_MIN then
    Raise (OverflowError "signed integer is less than minimum")
  else Ok v.

(** ["%i"] *)
Definition decimal (n : Z) : string := NilZero.string_of_int (Z.to_int n).

(** [date(year, month, day)]: the three arguments are converted in turn,
    then checked in turn (the messages are those of CPython 3.11). *)
Definition date_new (y m d : Z) : result date :=
  (y <- as_c_int y ;;
   m <- as_c_int m ;;
   d <- as_c_int d ;;
   if negb ((MINYEAR <=? y) && (y <=? MAXYEAR)) then
     Raise (ValueError ("year " ++ decimal y ++ " is out of range"))
   else if negb ((1 <=? m) && (m <=? 12)) then
     Raise (ValueError "month must be in 1..12")
   else if negb ((1 <=? d) && (d <=? days_in_month y m)) then
     Raise (ValueError "day is out of range for month")
   else Ok (mkdate y m d))%result.

(** [d.toordinal()] *)
Definition toordinal (d : date) : Z :=
  days_before_year (year d) + days_before_month (year d) (month d) + day d.

(** [(b - a).days] *)
Definition days_between (a b : date) : Z := toordinal b - toordinal a.

(** Number of days of a year. *)
Definition days_in_year (y : Z) : Z := if is_leap y then 366 else 365.

(** Order on the fields: year, then month, then day. *)
Definition date_compare (a b : date) : comparison :=
  match year a ?= year b with
  | Eq => match month a ?= month b with
          | Eq => day a ?= day b
          | c => c
          end
  | c => c
  end.

(** Code point of the last decimal digit of [n]. *)
Definition digit (n : Z) : Z := 48 + n mod 10.

(** ["%02d"] and ["%04d"] on numbers of at most that many digits. *)
Definition pad2 (n : Z) : str := [digit (n / 10); digit n].
Definition pad4 (n : Z) : str :=
  [digit (n / 1000); digit (n / 100); digit (n / 10); digit n].

Definition hyphen : Z := 45.

(** [d.isoformat()]: YYYY-MM-DD *)
Definition isoformat (d : date) : str :=
  pad4 (year d) ++ hyphen :: pad2 (month d) ++ hyphen :: pad2 (day d).

(** [d - timedelta(days=1)]: the normalisation that the standard library
    applies when the day field drops to zero. *)
Definition date_sub_one_day (d : date) : result date :=
  if 1 <? day d then Ok (mkdate (year d) (month d) (day d - 1))
  else if 1 <? month d then
    Ok (mkdate (year d) (month d - 1) (days_in_month (year d) (month d - 1)))
  else if MINYEAR <? year d then Ok (mkdate (year d - 1) 12 31)
  else Raise (OverflowError "date value out of range").

(** The calendar date written in a TEXT cell, when there is one
    ([date.fromisoformat]). *)
Definition digit_val (c : Z) : option Z :=
  if (48 <=? c) && (c <=? 57) then Some (c - 48) else None.

Definition number2 (a b : Z) : option Z :=
  match digit_val a, digit_val b with
  | Some x, Some y => Some (10 * x + y)
  | _, _ => None
  end.

Definition fromisoformat (s : str) : option date :=
  match s with
  | [y3; y2; y1; y0; h1; m1; m0; h2; d1; d0] =>
      match number2 y3 y2, number2 y1 y0, number2 m1 m0, number2 d1 d0 with
      | Some yh, Some yl, Some m, Some d =>
          let dt := mkdate (100 * yh + yl) m d in
          if (h1 =? hyphen) && (h2 =? hyphen) && valid_date dt
          then Some dt else None
      | _, _, _, _ => None
      end
  | _ => None
  end.

(** ** The database *)

(** [status TEXT NOT NULL CHECK(status IN ('LIBUR'))] *)
Inductive status_t : Type := LIBUR.

(** A row of [employees]. *)
Record employee : Type := mkemployee {
  emp_id : Z;
  full_name : str;
  employee_code : option str;
  is_active : Z;
  emp_created_at : str
}.

(** A row of [attendance_overrides]. *)
Record override : Type := mkoverride {
  ovr_id : Z;
  employee_id : Z;
  work_date : str;
  status : status_t;
  notes : option str;
  created_at : str
}.

(** The two tables, rows in rowid order, and the AUTOINCREMENT counters. *)
Record db : Type := mkdb {
  employees : list employee;
  attendance_overrides : list override;
  seq_employees : Z;
  seq_overrides : Z
}.

(** [init_db] on a new database file: both tables exist and are empty. *)
Definition init_db : db := mkdb [] [] 0 0.

(** AUTOINCREMENT: one more than the largest rowid the table ever held. *)
Definition next_rowid (seq : Z) (rowids : list Z) : Z :=
  fold_right Z.max seq rowids + 1.

(** Computations on the database that may raise. *)
Definition M (A : Type) : Type := db -> result A * db.

Definition ret {A : Type} (a : A) : M A := fun d => (Ok a, d).

Definition bind {A B : Type} (m : M A) (k : A -> M B) : M B :=
  fun d =>
    match m d with
    | (Ok a, d') => k a d'
    | (Raise e, d') => (Raise e, d')
    end.

Declare Scope db_scope.
Delimit Scope db_scope with db.
Notation "m >> k" := (bind m (fun _ => k))
  (at level 61, right associativity) : db_scope.

(** [execute(sql, params)]: one statement, then commit.  When the statement
    raises nothing is committed.  The code does not close the connection of
    a call that raised; until it is collected it can hold the write lock,
    and a write attempted meanwhile fails with "database is locked".  A
    computation here is what a call does to a database on which no such
    connection is left. *)
Definition execute (stmt : db -> result db) : M unit :=
  fun d =>
    match stmt d with
    | Ok d' => (Ok tt, d')
    | Raise e => (Raise e, d)
    end.

(** [for x in l: f(x)] *)
Fixpoint for_each {A : Type} (f : A -> M unit) (l : list A) : M unit :=
  match l with
  | [] => ret tt
  | x :: l' => (f x >> for_each f l')%db
  end.

(** *** Statements *)

Definition code_in_use (c : str) (d : db) : bool :=
  existsb (fun e => match employee_code e with
                    | Some c' => str_eqb c' c
                    | None => false
                    end) (employees d).

(** [INSERT INTO employees(full_name, employee_code, is_active, created_at)
     VALUES(?, ?, 1, ?)]; [employee_code] is UNIQUE and NULLs never clash. *)
Definition insert_employee (name : str) (code : option str) (now : str)
  (d : db) : result db :=
  let clash := match code with Some c => code_in_use c d | None => false end in
  if clash then
    Raise (IntegrityError "UNIQUE constraint failed: employees.employee_code")
  else
    let id := next_rowid (seq_employees d) (map emp_id (employees d)) in
    Ok (mkdb (employees d ++ [mkemployee id name code 1 now])
             (attendance_overrides d) id (seq_overrides d)).

(** [UPDATE employees SET is_active = ? WHERE id = ?] *)
Definition update_is_active (flag id : Z) (d : db) : result db :=
  Ok (mkdb (map (fun e =>
                   if emp_id e =? id
                   then mkemployee (emp_id e) (full_name e) (employee_code e)
                                   flag (emp_created_at e)
                   else e) (employees d))
           (attendance_overrides d) (seq_employees d) (seq_overrides d)).

(** The rows selected by [employee_id = ? AND work_date = ?]. *)
Definition same_pair (eid : Z) (wd : str) (r : override) : bool :=
  (employee_id r =? eid) && str_eqb (work_date r) wd.

(** What [DO UPDATE SET status='LIBUR', notes=excluded.notes] does to a row
    in conflict with the pair; the other rows stay as they are. *)
Definition set_notes (eid : Z) (wd notes : str) (r : override) : override :=
  if same_pair eid wd r
  then mkoverride (ovr_id r) (employee_id r) (work_date r) LIBUR (Some notes)
                  (created_at r)
  else r.

(** [INSERT INTO attendance_overrides(...) VALUES(?, ?, 'LIBUR', ?, ?)
     ON CONFLICT(employee_id, work_date) DO UPDATE SET
       status='LIBUR', notes=excluded.notes].
    The rowid is drawn before the uniqueness check, so the counter advances
    on the update path too.  On the insert path the foreign key is
    enforced ([PRAGMA foreign_keys = ON]).  [eid] is a value that sqlite3
    can bind, an integer of 64 bits; beyond that range the binding raises
    an OverflowError and the statement does not run. *)
Definition upsert_override (eid : Z) (wd notes now : str) (d : db) : result db :=
  let id := next_rowid (seq_overrides d) (map ovr_id (attendance_overrides d)) in
  if existsb (same_pair eid wd) (attendance_overrides d) then
    Ok (mkdb (employees d)
             (map (set_notes eid wd notes) (attendance_overrides d))
             (seq_employees d) id)
  else if existsb (fun e => emp_id e =? eid) (employees d) then
    Ok (mkdb (employees d)
             (attendance_overrides d
                ++ [mkoverride id eid wd LIBUR (Some notes) now])
             (seq_employees d) id)
  else Raise (IntegrityError "FOREIGN KEY constraint failed").

(** [DELETE FROM attendance_overrides WHERE employee_id = ? AND work_date = ?],
    for an [eid] that sqlite3 can bind, as for the upsert. *)
Definition delete_override (eid : Z) (wd : str) (d : db) : result db :=
  Ok (mkdb (employees d)
           (filter (fun r => negb (same_pair eid wd r)) (attendance_overrides d))
           (seq_employees d) (seq_overrides d)).

(** Removal of one row of [employees].  The application issues no such
    statement; the schema declares what it entails:
    [FOREIGN KEY(employee_id) REFERENCES employees(id) ON DELETE CASCADE],
    with foreign keys switched on by [get_conn]. *)
Definition delete_employee (id : Z) (d : db) : result db :=
  Ok (mkdb (filter (fun e => negb (emp_id e =? id)) (employees d))
           (filter (fun r => negb (employee_id r =? id)) (attendance_overrides d))
           (seq_employees d) (seq_overrides d)).

(** *** Ordering *)

(** [ORDER BY key] and [sort_values(key)], ascending.  Neither SQLite nor
    pandas fixes the order of rows with equal keys; here they keep the
    order they had. *)
Fixpoint insert_by {A : Type} (key : A -> str) (x : A) (l : list A) : list A :=
  match l with
  | [] => [x]
  | y :: l' =>
      if str_leb (key x) (key y) then x :: l else y :: insert_by key x l'
  end.

Fixpoint sort_by {A : Type} (key : A -> str) (l : list A) : list A :=
  match l with
  | [] => []
  | x :: l' => insert_by key x (sort_by key l')
  end.

(** ** Business logic *)

(** The columns [id, full_name, employee_code] of an employee. *)
Record active_row : Type := mkactive {
  a_id : Z;
  a_full_name : str;
  a_employee_code : option str
}.

Definition select_active (e : employee) : active_row :=
  mkactive (emp_id e) (full_name e) (employee_code e).

(** [get_active_employees] *)
Definition get_active_employees (d : db) : list active_row :=
  map select_active
      (sort_by full_name (filter (fun e => is_active e =? 1) (employees d))).

(** [set_libur] *)
Definition set_libur (employee_ids : list Z) (work_date : date)
  (notes now : str) : M unit :=
  for_each (fun eid =>
              execute (upsert_override eid (isoformat work_date) notes now))
           employee_ids.

(** [clear_override] *)
Definition clear_override (employee_ids : list Z) (work_date : date) : M unit :=
  for_each (fun eid => execute (delete_override eid (isoformat work_date)))
           employee_ids.

(** [COUNT( * ) ... GROUP BY key]: one pair per distinct key. *)
Fixpoint bump (k : Z) (groups : list (Z * Z)) : list (Z * Z) :=
  match groups with
  | [] => [(k, 1)]
  | (k', n) :: g => if k' =? k then (k', n + 1) :: g else (k', n) :: bump k g
  end.

Fixpoint group_count (keys : list Z) : list (Z * Z) :=
  match keys with
  | [] => []
  | k :: ks => bump k (group_count ks)
  end.

(** [work_date BETWEEN ? AND ?] on TEXT *)
Definition between (lo hi : str) (r : override) : bool :=
  str_leb lo (work_date r) && str_leb (work_date r) hi.

(** [SELECT employee_id, COUNT( * ) AS libur_days FROM attendance_overrides
     WHERE work_date BETWEEN ? AND ? GROUP BY employee_id] *)
Definition query_libur_days (lo hi : str) (d : db) : list (Z * Z) :=
  group_count (map employee_id (filter (between lo hi) (attendance_overrides d))).

(** [left.merge(right, how="left", left_on="id", right_on="employee_id")]:
    every left row once per matching right row, or once with a missing
    value when nothing matches. *)
Definition merge_left (left : list active_row) (right : list (Z * Z))
  : list (active_row * option Z) :=
  flat_map (fun l =>
              match filter (fun r => fst r =? a_id l) right with
              | [] => [(l, None)]
              | ms => map (fun r => (l, Some (snd r))) ms
              end) left.

(** [fillna(0).astype(int)] *)
Definition fillna0 (o : option Z) : Z :=
  match o with Some n => n | None => 0 end.

(** A row of the report, columns
    [full_name, employee_code, total_days, masuk_days, libur_days]. *)
Record report_row : Type := mkreport {
  r_full_name : str;
  r_employee_code : option str;
  total_days : Z;
  masuk_days : Z;
  libur_days : Z
}.

(** [build_report] *)
Definition build_report (start_date end_date : date) (d : db) : list report_row :=
  let employees := get_active_employees d in
  if is_empty employees then []
  else
    let overrides :=
      query_libur_days (isoformat start_date) (isoformat end_date) d in
    let total := days_between start_date end_date + 1 in
    let rep := merge_left employees overrides in
    let rep :=
      map (fun lr =>
             let libur := fillna0 (snd lr) in
             mkreport (a_full_name (fst lr)) (a_employee_code (fst lr))
                      total (total - libur) libur) rep in
    sort_by r_full_name rep.

(** *** Calendar helpers *)

(** The values met in [month_range], tagged with their class:
    [datetime.date], [pandas.Timestamp] and [datetime.datetime] (the time of
    day, always midnight here, is left out). *)
Inductive pyvalue : Type :=
| PyDate (d : date)
| PyTimestamp (d : date)
| PyDatetime (d : date).

(** [d - pd.Timedelta(days=1)] with [d] a [datetime.date].  [pd.Timedelta]
    is a subclass of [datetime.timedelta], so [date.__sub__] handles the
    operation and returns a [datetime.date]. *)
Definition date_sub_timedelta_1 (d : date) : result pyvalue :=
  (r <- date_sub_one_day d ;; Ok (PyDate r))%result.

(** [v.to_pydatetime()]: a method of [pandas.Timestamp] only. *)
Definition to_pydatetime (v : pyvalue) : result pyvalue :=
  match v with
  | PyTimestamp d => Ok (PyDatetime d)
  | PyDate _ =>
      Raise (AttributeError
               "'datetime.date' object has no attribute 'to_pydatetime'")
  | PyDatetime _ =>
      Raise (AttributeError
               "'datetime.datetime' object has no attribute 'to_pydatetime'")
  end.

(** [v.date()]: a method of [datetime.datetime] and of its subclass
    [pandas.Timestamp]. *)
Definition date_of (v : pyvalue) : result date :=
  match v with
  | PyTimestamp d | PyDatetime d => Ok d
  | PyDate _ =>
      Raise (AttributeError "'datetime.date' object has no attribute 'date'")
  end.

(** The value bound to [end] in [month_range], before its conversion. *)
Definition month_range_end (year month : Z) : result pyvalue :=
  (if month =? 12 then
     d <- date_new (year + 1) 1 1 ;; date_sub_timedelta_1 d
   else
     d <- date_new year (month + 1) 1 ;; date_sub_timedelta_1 d)%result.

(** [month_range] *)
Definition month_range (year month : Z) : result (date * date) :=
  (start <- date_new year month 1 ;;
   end_ <- month_range_end year month ;;
   dt <- to_pydatetime end_ ;;
   e <- date_of dt ;;
   Ok (start, e))%result.

(** [year_range] *)
Definition year_range (year : Z) : result (date * date) :=
  (s <- date_new year 1 1 ;;
   e <- date_new year 12 31 ;;
   Ok (s, e))%result.

(** ** Form handlers *)

(** What the page shows after a button press: [st.success] or [st.error]. *)
Inductive message : Type :=
| success (text : string)
| error (text : string).

(** The "Tambah" button of the employee tab. *)
Definition btn_add_emp (full_name employee_code now : str) : M message :=
  fun d =>
    if is_empty (strip full_name) then
      (Ok (error "Nama tidak boleh kosong."), d)
    else
      match execute (insert_employee (strip full_name)
                                     (or_none (strip employee_code)) now) d with
      | (Ok _, d') => (Ok (success "Karyawan ditambahkan."), d')
      | (Raise (IntegrityError e), d') => (Ok (error ("Gagal: " ++ e)), d')
      | (Raise e, d') => (Raise e, d')
      end.

(** The two options of the status radio. *)
Inductive state_option : Type := Aktif | Nonaktif.

(** The "Simpan status" button. *)
Definition btn_save_status (new_state : state_option) (selected_id : Z) : M unit :=
  execute (update_is_active (match new_state with Aktif => 1 | Nonaktif => 0 end)
                            selected_id).

(** The state a computation leaves behind. *)
Definition run {A : Type} (m : M A) (d : db) : db := snd (m d).

(** ** Reachable states *)

(** The actions on the database: the four writes of the application, with
    arbitrary arguments, and the removal of an employee row. *)
Inductive action : Type :=
| AddEmp (full_name employee_code now : str)
| SaveStatus (new_state : state_option) (selected_id : Z)
| SetLibur (employee_ids : list Z) (work_date : date) (notes now : str)
| ClearOverride (employee_ids : list Z) (work_date : date)
| DeleteEmployee (id : Z).

(** A [date] argument is a date that the constructor accepts. *)
Definition well_formed (a : action) : bool :=
  match a with
  | SetLibur _ wd _ _ | ClearOverride _ wd => valid_date wd
  | _ => true
  end.

Definition perform (a : action) : db -> db :=
  match a with
  | AddEmp name code now => run (btn_add_emp name code now)
  | SaveStatus st id => run (btn_save_status st id)
  | SetLibur ids wd notes now => run (set_libur ids wd notes now)
  | ClearOverride ids wd => run (clear_override ids wd)
  | DeleteEmployee id => run (execute (delete_employee id))
  end.

Definition perform_all (acts : list action) (d : db) : db :=
  fold_left (fun d a => perform a d) acts d.

(** The states that sequences of actions lead to.  A write that the
    application refuses, as when the database is locked by the connection
    of a call that raised, leaves the state as it is, so the states of the
    running application are among these. *)
Inductive reachable : db -> Prop :=
| reachable_init : reachable init_db
| reachable_step d a :
    reachable d -> well_formed a = true -> reachable (perform a d).

(** ** Properties of states *)

Definition pair_of (r : override) : Z * str := (employee_id r, work_date r).

(** [UNIQUE(employee_id, work_date)] *)
Definition unique_pairs (d : db) : Prop :=
  NoDup (map pair_of (attendance_overrides d)).

(** Every override refers to a row of [employees]. *)
Definition references_ok (d : db) : Prop :=
  forall r, In r (attendance_overrides d) ->
            In (employee_id r) (map emp_id (employees d)).

(** Every [work_date] cell is the ISO text of a calendar date. *)
Definition iso_dates (d : db) : Prop :=
  forall r, In r (attendance_overrides d) ->
            exists wd, valid_date wd = true /\ work_date r = isoformat wd.

(** What the schema and the argument types guarantee in every state. *)
Definition consistent (d : db) : Prop :=
  unique_pairs d /\ references_ok d /\ iso_dates d.

(** No employee row has an identifier above the counter. *)
Definition ids_bounded (d : db) : Prop :=
  forall e, In e (employees d) -> emp_id e <= seq_employees d.

(** The identifier has been handed out, and no row that carries it is
    active. *)
Definition switched_off (id : Z) (d : db) : Prop :=
  id <= seq_employees d
  /\ forall emp, In emp (employees d) -> emp_id emp = id -> is_active emp = 0.

(** The override rows of one (employee, date) pair. *)
Definition rows_of_pair (eid : Z) (wd : date) (d : db) : list override :=
  filter (same_pair eid (isoformat wd)) (attendance_overrides d).

(** The pair has exactly one override row, and it carries the note. *)
Definition one_row_with_note (eid : Z) (wd : date) (n : str) (d : db) : Prop :=
  exists r, rows_of_pair eid wd d = [r] /\ notes r = Some n.

(** A code has been entered and an employee row already carries it. *)
Definition code_taken (employee_code_input : str) (d : db) : Prop :=
  strip employee_code_input <> []
  /\ exists e, In e (employees d)
               /\ employee_code e = Some (strip employee_code_input).

(** ** The report, row by row *)

(** Rows in ascending order of their key. *)
Definition sorted_by {A : Type} (key : A -> str) (l : list A) : Prop :=
  StronglySorted (fun a b => str_le (key a) (key b)) l.

(** The number of override rows of an employee that the range query
    selects. *)
Definition count_between (lo hi : str) (d : db) (eid : Z) : Z :=
  Z.of_nat (List.length
              (filter (fun k => k =? eid)
                      (map employee_id
                           (filter (between lo hi) (attendance_overrides d))))).

(** The row that [build_report] computes for one active employee. *)
Definition row_of (start_date end_date : date) (d : db) (a : active_row)
  : report_row :=
  let total := days_between start_date end_date + 1 in
  let libur :=
    count_between (isoformat start_date) (isoformat end_date) d (a_id a) in
  mkreport (a_full_name a) (a_employee_code a) total (total - libur) libur.

(** The active rows of the employees other than [id]. *)
Definition other_than (id : Z) (a : active_row) : bool := negb (a_id a =? id).

(** ** The report as the specification words it *)

(** A work date lies in the inclusive calendar range. *)
Definition in_range (start_date end_date : date) (wd : str) : bool :=
  match fromisoformat wd with
  | Some d => (toordinal start_date <=? toordinal d)
              && (toordinal d <=? toordinal end_date)
  | None => false
  end.

(** Absent days: the number of override rows of the employee whose work
    date lies in the range. *)
Definition spec_absent_days (start_date end_date : date) (d : db) (eid : Z) : Z :=
  Z.of_nat (List.length
              (filter (fun r => (employee_id r =? eid)
                                && in_range start_date end_date (work_date r))
                      (attendance_overrides d))).

(** Total days: the inclusive day count. *)
Definition spec_total_days (start_date end_date : date) : Z :=
  toordinal end_date - toordinal start_date + 1.

(** The row of one active employee. *)
Definition spec_row (start_date end_date : date) (d : db) (a : active_row)
  : report_row :=
  let absent := spec_absent_days start_date end_date d (a_id a) in
  mkreport (a_full_name a) (a_employee_code a)
           (spec_total_days start_date end_date)
           (spec_total_days start_date end_date - absent) absent.

(** ** The employee list *)

(** [get_all_employees]: every column of every row. *)
Definition get_all_employees (d : db) : list employee :=
  sort_by full_name (employees d).

(** [show["is_active"].map({1: "Aktif", 0: "Nonaktif"})]: a value that is
    not a key of the dictionary gives a missing value. *)
Definition status_label (flag : Z) : option string :=
  if flag =? 1 then Some "Aktif"%string
  else if flag =? 0 then Some "Nonaktif"%string
  else None.

(** The codes in use: the non-NULL cells of [employee_code]. *)
Definition codes (l : list employee) : list str :=
  flat_map (fun e => match employee_code e with
                     | Some c => [c]
                     | None => []
                     end) l.

(** What the two schemas and the handlers guarantee about keys and
    flags. *)
Definition keys_ok (d : db) : Prop :=
  NoDup (map emp_id (employees d))
  /\ NoDup (map ovr_id (attendance_overrides d))
  /\ NoDup (codes (employees d))
  /\ (forall e, In e (employees d) ->
        emp_id e <= seq_employees d
        /\ (is_active e = 0 \/ is_active e = 1)
        /\ full_name e <> []
        /\ employee_code e <> Some [])
  /\ (forall r, In r (attendance_overrides d) -> ovr_id r <= seq_overrides d).

(** ** Effects of the override writes *)

(** A Python int that sqlite3 can bind to a parameter: a value of SQLite's
    INTEGER type, signed 64 bits.  For an int beyond it the binding raises
    an OverflowError before the statement runs; the statements above are
    stated for parameters that can be bound. *)
Definition sqlite_integer (v : Z) : Prop :=
  -9223372036854775808 <= v <= 9223372036854775807.

(** The rows that [clear_override] deletes: those of the listed employees
    on the date. *)
Definition cleared (employee_ids : list Z) (wd : str) (r : override) : bool :=
  existsb (fun eid => employee_id r =? eid) employee_ids
  && str_eqb (work_date r) wd.

(** The ordinal of the calendar date written in a TEXT cell. *)
Definition ordinal_of_text (wd : str) : Z :=
  match fromisoformat wd with
  | Some d => toordinal d
  | None => 0
  end.

(** A report row with [delta] more days off. *)
Definition shift_days (delta : Z) (row : report_row) : report_row :=
  mkreport (r_full_name row) (r_employee_code row) (total_days row)
           (masuk_days row - delta) (libur_days row + delta).

(** The date lies in the inclusive range. *)
Definition date_in_range (start_date end_date wd : date) : bool :=
  (toordinal start_date <=? toordinal wd) && (toordinal wd <=? toordinal end_date).

(** The employee is listed. *)
Definition listed (employee_ids : list Z) (eid : Z) : bool :=
  existsb (fun i => eid =? i) employee_ids.

(** The pair has no override row. *)
Definition no_row (eid : Z) (wd : date) (d : db) : bool :=
  is_empty (rows_of_pair eid wd d).

(** ** The day-off tab *)

(** The radio "Untuk siapa?": one employee, chosen in the select box among
    the active ones, or all active employees. *)
Inductive target_mode : Type :=
| SatuKaryawan (emp_id : Z)
| SemuaKaryawanAktif.

(** [target_ids] *)
Definition target_ids (mode : target_mode) (df_active : list active_row)
  : list Z :=
  match mode with
  | SatuKaryawan emp_id => [emp_id]
  | SemuaKaryawanAktif => map a_id df_active
  end.

(** The "Tandai LIBUR" button.  Without active employees the tab shows a
    warning and no form, and nothing is written. *)
Definition btn_set_libur (mode : target_mode) (d : date) (notes now : str)
  : M unit :=
  fun database =>
    let df_active := get_active_employees database in
    if is_empty df_active then (Ok tt, database)
    else set_libur (target_ids mode df_active) d (strip notes) now database.

(** The "Batalkan LIBUR" button. *)
Definition btn_cancel_libur (mode2 : target_mode) (d2 : date) : M unit :=
  fun database =>
    let df_active := get_active_employees database in
    if is_empty df_active then (Ok tt, database)
    else clear_override (target_ids mode2 df_active) d2 database.

(** The choice offered by the select box. *)
Definition selectable (mode : target_mode) (d : db) : Prop :=
  match mode with
  | SatuKaryawan emp_id => In emp_id (map a_id (get_active_employees d))
  | SemuaKaryawanAktif => True
  end.

(** ** The override listing *)

(** A row of the listing, columns
    [work_date, full_name, employee_code, status, notes, created_at]. *)
Record listing_row : Type := mklisting {
  l_work_date : str;
  l_full_name : str;
  l_employee_code : option str;
  l_status : status_t;
  l_notes : option str;
  l_created_at : str
}.

(** [FROM attendance_overrides ao JOIN employees e ON e.id = ao.employee_id] *)
Definition join_employees (ovs : list override) (emps : list employee)
  : list (override * employee) :=
  flat_map (fun ao =>
              map (fun e => (ao, e))
                  (filter (fun e => emp_id e =? employee_id ao) emps)) ovs.

(** [ORDER BY ao.work_date DESC, e.full_name]: whether [x] may come before
    [y]. *)
Definition listing_leb (x y : override * employee) : bool :=
  match str_compare (work_date (fst x)) (work_date (fst y)) with
  | Gt => true
  | Lt => false
  | Eq => str_leb (full_name (snd x)) (full_name (snd y))
  end.

(** Ordering by a comparison.  SQL leaves the order of rows that compare
    equal open; here they keep the order of the join. *)
Fixpoint insert_with {A : Type} (leb : A -> A -> bool) (x : A) (l : list A)
  : list A :=
  match l with
  | [] => [x]
  | y :: l' => if leb x y then x :: l else y :: insert_with leb x l'
  end.

Fixpoint sort_with {A : Type} (leb : A -> A -> bool) (l : list A) : list A :=
  match l with
  | [] => []
  | x :: l' => insert_with leb x (sort_with leb l')
  end.

(** The joined rows in the order of the listing. *)
Definition listed_pairs (d : db) : list (override * employee) :=
  sort_with listing_leb
            (join_employees (attendance_overrides d) (employees d)).

Definition select_listing (p : override * employee) : listing_row :=
  mklisting (work_date (fst p)) (full_name (snd p)) (employee_code (snd p))
            (status (fst p)) (notes (fst p)) (created_at (fst p)).

(** The query behind "Daftar override LIBUR". *)
Definition list_overrides (d : db) : list listing_row :=
  map select_listing (listed_pairs d).

(** Newest date first, equal dates by ascending name. *)
Definition listing_order (r1 r2 : listing_row) : Prop :=
  str_compare (l_work_date r2) (l_work_date r1) = Lt
  \/ (l_work_date r1 = l_work_date r2
      /\ str_le (l_full_name r1) (l_full_name r2)).

(** ** The report tab *)

(** "Rekap tahunan": [build_report] on the range of [year_range]. *)
Definition rekap_tahunan (y2 : Z) (d : db) : result (list report_row) :=
  (p <- year_range y2 ;;
   Ok (build_report (fst p) (snd p) d))%result.

(** "Rekap bulanan": [build_report] on the range of [month_range]. *)
Definition rekap_bulanan (y m : Z) (d : db) : result (list report_row) :=
  (p <- month_range y m ;;
   Ok (build_report (fst p) (snd p) d))%result.

(** What the report tab shows: a warning without active employees, else
    the monthly and then the yearly report (the tables and the CSV
    downloads made of them are left out). *)
Inductive tab3_view : Type :=
| tab3_warning
| tab3_reports (rep_m rep_y : list report_row).

Definition tab3 (y m y2 : Z) (d : db) : result tab3_view :=
  if is_empty (get_active_employees d) then Ok tab3_warning
  else
    (rep_m <- rekap_bulanan y m d ;;
     rep_y <- rekap_tahunan y2 d ;;
     Ok (tab3_reports rep_m rep_y))%result.

(** ** Identity of employees, and reports of adjacent ranges *)

(** Two rows are the same employee: all columns but the flag agree. *)
Definition same_identity (e e' : employee) : Prop :=
  emp_id e' = emp_id e /\ full_name e' = full_name e
  /\ employee_code e' = employee_code e
  /\ emp_created_at e' = emp_created_at e.

(** The state [d'] has not forgotten what [d] handed out: the counter has
    not gone back, and a row with an identifier of [d]'s time is a row of
    [d]. *)
Definition extends (d d' : db) : Prop :=
  seq_employees d <= seq_employees d'
  /\ forall e', In e' (employees d') -> emp_id e' <= seq_employees d ->
                exists e, In e (employees d) /\ same_identity e e'.

(** The rows of one employee for two ranges, added up. *)
Definition add_rows (r1 r2 : report_row) : report_row :=
  mkreport (r_full_name r1) (r_employee_code r1)
           (total_days r1 + total_days r2)
           (masuk_days r1 + masuk_days r2)
           (libur_days r1 + libur_days r2).

(** ** A small database *)

Definition t0 : str := py "2024-01-05T08:00:00".

(** Two employees; Andi has two days off in January 2024 and one in
    February, Budi one in January. *)
Definition db_example : db :=
  perform_all
    [ AddEmp (py " Andi Pratama ") (py "EMP-001") t0;
      AddEmp (py "Budi Santoso") (py "EMP-002") t0;
      SetLibur [1; 2] (mkdate 2024 1 1) (py "cuti bersama") t0;
      SetLibur [1] (mkdate 2024 1 15) (py "izin pribadi") t0;
      SetLibur [1] (mkdate 2024 2 9) (py "izin") t0 ]
    init_db.

Definition jan1 : date := mkdate 2024 1 1.
Definition jan31 : date := mkdate 2024 1 31.

(** Four employees added out of alphabetical order, one of them
    deactivated; Zaki has two days off in January 2024, Mira one. *)
Definition db_unsorted : db :=
  perform_all
    [ AddEmp (py "Zaki") (py "") t0;
      AddEmp (py "Mira") (py " ") t0;
      AddEmp (py "Budi") (py "B-7") t0;
      AddEmp (py "Andi") (py "A-1") t0;
      SaveStatus Nonaktif 3;
      SetLibur [1; 2; 3] (mkdate 2024 1 10) (py "libur") t0;
      SetLibur [1] (mkdate 2024 1 11) (py "sakit") t0;
      SetLibur [4] (mkdate 2024 2 1) (py "izin") t0 ]
    init_db.

(** * Properties *)

(** ** Text order *)

Lemma str_compare_refl (a : str) : str_compare a a = Eq.
Proof.
  induction a as [|x a IH]; simpl; [reflexivity|].
  now rewrite Z.compare_refl.
Qed.

Lemma str_compare_eq (a b : str) : str_compare a b = Eq -> a = b.
Proof.
  revert b; induction a as [|x a IH]; intros [|y b]; simpl; try discriminate.
  - reflexivity.
  - destruct (Z.compare_spec x y) as [Exy| |]; try discriminate.
    intros Hab; subst; f_equal; auto.
Qed.

Lemma str_compare_antisym (a b : str) :
  str_compare b a = CompOpp (str_compare a b).
Proof.
  revert b; induction a as [|x a IH]; intros [|y b]; simpl; try reflexivity.
  rewrite (Z.compare_antisym x y).
  destruct (x ?= y); simpl; auto.
Qed.

Lemma str_eqb_eq (a b : str) : str_eqb a b = true <-> a = b.
Proof.
  unfold str_eqb; split.
  - destruct (str_compare a b) eqn:E; try discriminate.
    intros _; now apply str_compare_eq.
  - intros ->; now rewrite str_compare_refl.
Qed.

Lemma str_eqb_refl (a : str) : str_eqb a a = true.
Proof. now apply str_eqb_eq. Qed.

Lemma str_eqb_neq (a b : str) : str_eqb a b = false <-> a <> b.
Proof.
  rewrite <- str_eqb_eq; destruct (str_eqb a b); split; congruence.
Qed.

Lemma str_leb_refl (a : str) : str_leb a a = true.
Proof. unfold str_leb; now rewrite str_compare_refl. Qed.

Lemma str_leb_total (a b : str) : str_leb a b = true \/ str_leb b a = true.
Proof.
  unfold str_leb; rewrite (str_compare_antisym a b).
  destruct (str_compare a b); simpl; auto.
Qed.

Lemma str_compare_trans_lt (a b c : str) :
  str_compare a b = Lt -> str_compare b c <> Gt -> str_compare a c = Lt.
Proof.
  revert b c; induction a as [|x a IH]; intros [|y b] [|z c]; simpl;
    try congruence.
  destruct (Z.compare_spec x y) as [Exy|Lxy|Gxy]; try congruence;
    destruct (Z.compare_spec y z) as [Eyz|Lyz|Gyz]; try congruence;
    intros H1 H2; subst.
  - rewrite Z.compare_refl; eauto.
  - now apply Z.compare_lt_iff in Lyz as ->.
  - now apply Z.compare_lt_iff in Lxy as ->.
  - assert (x < z) as ->%Z.compare_lt_iff by lia; reflexivity.
Qed.

Lemma str_leb_trans (a b c : str) :
  str_leb a b = true -> str_leb b c = true -> str_leb a c = true.
Proof.
  unfold str_leb.
  destruct (str_compare a b) eqn:Eab; try discriminate; intros _.
  - apply str_compare_eq in Eab; now subst.
  - destruct (str_compare b c) eqn:Ebc; try discriminate; intros _.
    + apply str_compare_eq in Ebc; subst; now rewrite Eab.
    + rewrite (@str_compare_trans_lt a b c); auto; congruence.
Qed.

Lemma str_leb_antisym (a b : str) :
  str_leb a b = true -> str_leb b a = true -> a = b.
Proof.
  unfold str_leb; rewrite (str_compare_antisym a b).
  destruct (str_compare a b) eqn:E; simpl; try discriminate.
  intros _ _; now apply str_compare_eq.
Qed.

(** Comparison skips a common prefix. *)
Lemma str_compare_app (p a b : str) :
  str_compare (p ++ a) (p ++ b) = str_compare a b.
Proof.
  induction p as [|x p IH]; simpl; [reflexivity|].
  now rewrite Z.compare_refl.
Qed.

(** ** Calendar arithmetic *)

Lemma valid_date_fields (d : date) :
  valid_date d = true ->
  1 <= year d <= 9999 /\ 1 <= month d <= 12
  /\ 1 <= day d <= days_in_month (year d) (month d).
Proof.
  unfold valid_date, MINYEAR, MAXYEAR.
  rewrite !andb_true_iff, !Z.leb_le. lia.
Qed.

Lemma month_cases (m : Z) :
  1 <= m <= 12 ->
  m = 1 \/ m = 2 \/ m = 3 \/ m = 4 \/ m = 5 \/ m = 6 \/ m = 7 \/ m = 8
  \/ m = 9 \/ m = 10 \/ m = 11 \/ m = 12.
Proof. lia. Qed.

Ltac each_month m H :=
  apply month_cases in H;
  repeat (destruct H as [H|H]; [subst m|]); [..|subst m].

Lemma is_leap_spec (y : Z) :
  is_leap y = true <-> (y mod 4 = 0 /\ (y mod 100 <> 0 \/ y mod 400 = 0)).
Proof.
  unfold is_leap.
  rewrite andb_true_iff, orb_true_iff, negb_true_iff, !Z.eqb_eq, Z.eqb_neq.
  tauto.
Qed.

Lemma days_before_year_succ (y : Z) :
  days_before_year (y + 1) = days_before_year y + days_in_year y.
Proof.
  unfold days_before_year, days_in_year.
  replace (y + 1 - 1) with y by lia.
  destruct (is_leap y) eqn:L.
  - apply is_leap_spec in L. Z.div_mod_to_equations. lia.
  - assert (~ (y mod 4 = 0 /\ (y mod 100 <> 0 \/ y mod 400 = 0))) as N
        by (rewrite <- is_leap_spec; congruence).
    Z.div_mod_to_equations. lia.
Qed.

Lemma days_before_year_mono (y y' : Z) :
  y <= y' -> days_before_year y <= days_before_year y'.
Proof.
  unfold days_before_year. intros H. Z.div_mod_to_equations. lia.
Qed.

Lemma days_in_month_pos (y m : Z) : 1 <= m <= 12 -> 28 <= days_in_month y m <= 31.
Proof.
  intros H. unfold days_in_month.
  each_month m H; destruct (is_leap y); simpl; lia.
Qed.

Lemma days_before_month_next (y m : Z) :
  1 <= m <= 11 ->
  days_before_month y (m + 1) = days_before_month y m + days_in_month y m.
Proof.
  intros H. assert (1 <= m <= 12) as H' by lia.
  unfold days_before_month, days_in_month.
  each_month m H'; try lia; destruct (is_leap y); reflexivity.
Qed.

Lemma days_before_month_mono (y m m' : Z) :
  1 <= m -> m < m' -> m' <= 12 ->
  days_before_month y m + days_in_month y m <= days_before_month y m'.
Proof.
  intros H1 H2 H3.
  assert (1 <= m <= 12) as Hm by lia.
  assert (1 <= m' <= 12) as Hm' by lia.
  unfold days_before_month, days_in_month.
  each_month m Hm; each_month m' Hm'; try lia; destruct (is_leap y); simpl; lia.
Qed.

Lemma days_before_month_december (y : Z) :
  days_before_month y 12 + days_in_month y 12 = days_in_year y.
Proof.
  unfold days_before_month, days_in_month, days_in_year.
  destruct (is_leap y); reflexivity.
Qed.

Lemma days_before_month_bounds (y m : Z) :
  1 <= m <= 12 ->
  0 <= days_before_month y m
  /\ days_before_month y m + days_in_month y m <= days_in_year y.
Proof.
  intros H. unfold days_before_month, days_in_month, days_in_year.
  each_month m H; destruct (is_leap y); simpl; lia.
Qed.

Lemma toordinal_bounds (d : date) :
  valid_date d = true ->
  days_before_year (year d) < toordinal d
  <= days_before_year (year d) + days_in_year (year d).
Proof.
  intros V. apply valid_date_fields in V as (Hy & Hm & Hd).
  unfold toordinal.
  pose proof (days_before_month_bounds (year d) (month d) Hm). lia.
Qed.

Lemma toordinal_year_lt (a b : date) :
  valid_date a = true -> valid_date b = true ->
  year a < year b -> toordinal a < toordinal b.
Proof.
  intros Va Vb H.
  pose proof (toordinal_bounds a Va) as Ba.
  pose proof (toordinal_bounds b Vb) as Bb.
  rewrite <- days_before_year_succ in Ba.
  pose proof (days_before_year_mono (year a + 1) (year b)). lia.
Qed.

Lemma toordinal_month_lt (a b : date) :
  valid_date a = true -> valid_date b = true ->
  year a = year b -> month a < month b -> toordinal a < toordinal b.
Proof.
  intros Va Vb Hy H.
  apply valid_date_fields in Va as (_ & Hma & Hda).
  apply valid_date_fields in Vb as (_ & Hmb & Hdb).
  unfold toordinal. rewrite Hy in *.
  pose proof (days_before_month_mono (year b) (month a) (month b)). lia.
Qed.

Lemma toordinal_compare (a b : date) :
  valid_date a = true -> valid_date b = true ->
  (toordinal a ?= toordinal b) = date_compare a b.
Proof.
  intros Va Vb. unfold date_compare.
  destruct (Z.compare_spec (year a) (year b)) as [Ey|Ly|Gy].
  - destruct (Z.compare_spec (month a) (month b)) as [Em|Lm|Gm].
    + unfold toordinal. rewrite Ey, Em.
      now rewrite !Z.add_compare_mono_l.
    + apply Z.compare_lt_iff. now apply toordinal_month_lt.
    + apply Z.compare_gt_iff. now apply toordinal_month_lt.
  - apply Z.compare_lt_iff. now apply toordinal_year_lt.
  - apply Z.compare_gt_iff. now apply toordinal_year_lt.
Qed.

Lemma digit_compare (x y : Z) : (digit x ?= digit y) = (x mod 10 ?= y mod 10).
Proof. unfold digit. now rewrite Z.add_compare_mono_l. Qed.

Ltac compare_cases :=
  repeat match goal with
         | |- context [?u ?= ?v] => destruct (Z.compare_spec u v)
         end.

Lemma pad2_compare (x y : Z) (s t : str) :
  0 <= x < 100 -> 0 <= y < 100 ->
  str_compare (pad2 x ++ s) (pad2 y ++ t)
  = match x ?= y with Eq => str_compare s t | c => c end.
Proof.
  intros Hx Hy. unfold pad2. simpl. rewrite !digit_compare.
  compare_cases; try reflexivity; exfalso; Z.div_mod_to_equations; lia.
Qed.

Lemma pad4_compare (x y : Z) (s t : str) :
  0 <= x < 10000 -> 0 <= y < 10000 ->
  str_compare (pad4 x ++ s) (pad4 y ++ t)
  = match x ?= y with Eq => str_compare s t | c => c end.
Proof.
  intros Hx Hy. unfold pad4. simpl. rewrite !digit_compare.
  compare_cases; try reflexivity; exfalso; Z.div_mod_to_equations; lia.
Qed.

Lemma str_compare_cons (c : Z) (a b : str) :
  str_compare (c :: a) (c :: b) = str_compare a b.
Proof. simpl. now rewrite Z.compare_refl. Qed.

Lemma isoformat_compare (a b : date) :
  valid_date a = true -> valid_date b = true ->
  str_compare (isoformat a) (isoformat b) = date_compare a b.
Proof.
  intros Va Vb.
  apply valid_date_fields in Va as (Hya & Hma & Hda).
  apply valid_date_fields in Vb as (Hyb & Hmb & Hdb).
  pose proof (days_in_month_pos (year a) _ Hma).
  pose proof (days_in_month_pos (year b) _ Hmb).
  unfold isoformat, date_compare.
  rewrite pad4_compare by lia.
  destruct (year a ?= year b); try reflexivity.
  rewrite str_compare_cons, pad2_compare by lia.
  destruct (month a ?= month b); try reflexivity.
  rewrite str_compare_cons.
  rewrite <- (app_nil_r (pad2 (day a))), <- (app_nil_r (pad2 (day b))).
  rewrite pad2_compare by lia.
  now destruct (day a ?= day b).
Qed.

(** On ISO texts the TEXT order is the calendar order. *)
Lemma isoformat_leb (a b : date) :
  valid_date a = true -> valid_date b = true ->
  str_leb (isoformat a) (isoformat b) = (toordinal a <=? toordinal b).
Proof.
  intros Va Vb. unfold str_leb, Z.leb.
  now rewrite isoformat_compare, toordinal_compare.
Qed.

Lemma number2_digit (a b : Z) :
  number2 (digit a) (digit b) = Some (10 * (a mod 10) + b mod 10).
Proof.
  unfold number2, digit_val, digit.
  assert (forall u, (48 <=? 48 + u mod 10) && (48 + u mod 10 <=? 57) = true) as E.
  { intros u. apply andb_true_iff. rewrite !Z.leb_le.
    Z.div_mod_to_equations. lia. }
  rewrite !E. f_equal. lia.
Qed.

Lemma fromisoformat_isoformat (d : date) :
  valid_date d = true -> fromisoformat (isoformat d) = Some d.
Proof.
  intros V. pose proof V as (Hy & Hm & Hd)%valid_date_fields.
  pose proof (days_in_month_pos (year d) _ Hm).
  unfold isoformat, pad4, pad2. cbn [app]. unfold fromisoformat.
  rewrite !number2_digit, !Z.eqb_refl. cbn [andb].
  match goal with
  | |- (if valid_date ?x then _ else _) = _ => replace x with d
  end.
  - now rewrite V.
  - destruct d as [y m dd]; cbn [year month day] in *.
    f_equal; Z.div_mod_to_equations; lia.
Qed.

Lemma isoformat_inj (a b : date) :
  valid_date a = true -> valid_date b = true ->
  isoformat a = isoformat b -> a = b.
Proof.
  intros Va Vb E. apply fromisoformat_isoformat in Va, Vb.
  rewrite E in Va. congruence.
Qed.

(** ** Sorting *)

Section Sorting.
Context {A : Type} (key : A -> str).

Lemma insert_by_perm (x : A) (l : list A) :
  Permutation (insert_by key x l) (x :: l).
Proof.
  induction l as [|y l IH]; simpl; [reflexivity|].
  destruct (str_leb (key x) (key y)); [reflexivity|].
  rewrite IH. apply perm_swap.
Qed.

Lemma sort_by_perm (l : list A) : Permutation (sort_by key l) l.
Proof.
  induction l as [|x l IH]; simpl; [reflexivity|].
  rewrite insert_by_perm. now constructor.
Qed.

Lemma insert_by_sorted (x : A) (l : list A) :
  sorted_by key l -> sorted_by key (insert_by key x l).
Proof.
  unfold sorted_by.
  induction 1 as [|y l Hs IH Hy]; simpl.
  - repeat constructor.
  - destruct (str_leb (key x) (key y)) eqn:E.
    + constructor; [now constructor|].
      constructor; [exact E|].
      eapply Forall_impl; [|exact Hy].
      intros z Hz. eapply str_leb_trans; eauto.
    + constructor; [exact IH|].
      eapply Permutation_Forall; [symmetry; apply insert_by_perm|].
      constructor; [|exact Hy].
      destruct (str_leb_total (key x) (key y)); [congruence|assumption].
Qed.

Lemma sort_by_sorted (l : list A) : sorted_by key (sort_by key l).
Proof.
  induction l as [|x l IH]; simpl; [constructor|].
  now apply insert_by_sorted.
Qed.

(** Sorting leaves a sorted list as it is. *)
Lemma sort_by_id (l : list A) : sorted_by key l -> sort_by key l = l.
Proof.
  induction 1 as [|x l Hs IH Hx]; simpl; [reflexivity|].
  rewrite IH. destruct l as [|y l]; simpl; [reflexivity|].
  inversion Hx as [|? ? Hxy _]; subst.
  unfold str_le in Hxy. now rewrite Hxy.
Qed.

Lemma filter_insert_by (p : A -> bool) (x : A) (l : list A) :
  sorted_by key l ->
  filter p (insert_by key x l)
  = if p x then insert_by key x (filter p l) else filter p l.
Proof.
  induction 1 as [|y l Hs IH Hy]; simpl.
  - now destruct (p x).
  - destruct (str_leb (key x) (key y)) eqn:E; simpl.
    + destruct (p x) eqn:Px; [|reflexivity].
      destruct (p y) eqn:Py; simpl; [now rewrite E|].
      clear IH. induction l as [|z l IHl]; simpl; [reflexivity|].
      inversion Hy as [|? ? Hyz Hy']; subst.
      inversion Hs as [|? ? Hs' Hz]; subst.
      destruct (p z); simpl.
      * unfold str_le in Hyz.
        now rewrite (str_leb_trans _ _ _ E Hyz).
      * apply IHl; assumption.
    + rewrite IH. destruct (p y), (p x); simpl; try reflexivity.
      now rewrite E.
Qed.

(** Selecting rows and ordering them commute. *)
Lemma filter_sort_by (p : A -> bool) (l : list A) :
  filter p (sort_by key l) = sort_by key (filter p l).
Proof.
  induction l as [|x l IH]; simpl; [reflexivity|].
  rewrite filter_insert_by by apply sort_by_sorted.
  rewrite IH. now destruct (p x).
Qed.

End Sorting.

Lemma sorted_by_map {A B : Type} (f : A -> B) (key : A -> str) (key' : B -> str)
  (l : list A) :
  (forall x, key' (f x) = key x) ->
  sorted_by key l -> sorted_by key' (map f l).
Proof.
  intros Hk. induction 1 as [|x l Hs IH Hx]; simpl; constructor; auto.
  apply Forall_map. eapply Forall_impl; [|exact Hx].
  intros y Hy. now rewrite !Hk.
Qed.

Lemma sort_by_map {A B : Type} (f : A -> B) (key : A -> str) (key' : B -> str)
  (l : list A) :
  (forall x, key' (f x) = key x) ->
  sort_by key' (map f l) = map f (sort_by key l).
Proof.
  intros Hk. induction l as [|x l IH]; simpl; [reflexivity|].
  rewrite IH. generalize (sort_by key l) as s.
  induction s as [|y s IHs]; simpl; [reflexivity|].
  rewrite !Hk. destruct (str_leb (key x) (key y)); simpl; [reflexivity|].
  now rewrite IHs.
Qed.

(** ** Grouping and joining *)

Lemma filter_bump_other (k k' : Z) (g : list (Z * Z)) :
  k' <> k ->
  filter (fun r => fst r =? k) (bump k' g) = filter (fun r => fst r =? k) g.
Proof.
  intros N. induction g as [|[k1 n1] g IH]; simpl.
  - now apply Z.eqb_neq in N as ->.
  - destruct (k1 =? k') eqn:E; simpl.
    + apply Z.eqb_eq in E; subst k1.
      now apply Z.eqb_neq in N as ->.
    + now rewrite IH.
Qed.

Lemma filter_bump_nil (k : Z) (g : list (Z * Z)) :
  filter (fun r => fst r =? k) g = [] ->
  filter (fun r => fst r =? k) (bump k g) = [(k, 1)].
Proof.
  induction g as [|[k1 n1] g IH]; simpl.
  - now rewrite Z.eqb_refl.
  - destruct (k1 =? k) eqn:E; simpl; [discriminate|].
    rewrite E. exact IH.
Qed.

Lemma filter_bump_one (k n : Z) (g : list (Z * Z)) :
  filter (fun r => fst r =? k) g = [(k, n)] ->
  filter (fun r => fst r =? k) (bump k g) = [(k, n + 1)].
Proof.
  induction g as [|[k1 n1] g IH]; simpl; [discriminate|].
  destruct (k1 =? k) eqn:E; simpl; rewrite E.
  - intros [= -> -> ->]. reflexivity.
  - exact IH.
Qed.

(** A group per key that occurs, holding the number of its occurrences. *)
Lemma filter_group_count (k : Z) (keys : list Z) :
  filter (fun r => fst r =? k) (group_count keys)
  = match filter (fun k' => k' =? k) keys with
    | [] => []
    | ks => [(k, Z.of_nat (List.length ks))]
    end.
Proof.
  induction keys as [|k0 keys IH]; simpl; [reflexivity|].
  destruct (k0 =? k) eqn:E.
  - apply Z.eqb_eq in E; subst k0.
    destruct (filter (fun k' => k' =? k) keys) as [|k1 ks] eqn:F.
    + now apply filter_bump_nil.
    + rewrite (filter_bump_one k _ _ IH). do 2 f_equal.
      change (List.length (k :: k1 :: ks)) with (S (List.length (k1 :: ks))).
      lia.
  - apply Z.eqb_neq in E. now rewrite filter_bump_other.
Qed.

(** Joined with the grouped counts, every left row appears once. *)
Lemma merge_left_group_count (left : list active_row) (keys : list Z) :
  merge_left left (group_count keys)
  = map (fun l => (l, match filter (fun k => k =? a_id l) keys with
                      | [] => None
                      | ks => Some (Z.of_nat (List.length ks))
                      end)) left.
Proof.
  unfold merge_left.
  induction left as [|l left IH]; [reflexivity|].
  cbn [flat_map]. rewrite IH, filter_group_count. cbn [map].
  now destruct (filter (fun k => k =? a_id l) keys).
Qed.

Lemma get_active_employees_sorted (d : db) :
  sorted_by a_full_name (get_active_employees d).
Proof.
  unfold get_active_employees.
  apply sorted_by_map with (key := full_name); [reflexivity|].
  apply sort_by_sorted.
Qed.

(** The report has one row per active employee, in the order of
    [get_active_employees]. *)
Lemma build_report_rows (s e : date) (d : db) :
  build_report s e d = map (row_of s e d) (get_active_employees d).
Proof.
  unfold build_report.
  pose proof (get_active_employees_sorted d) as Hs.
  destruct (get_active_employees d) as [|a l] eqn:E; [reflexivity|].
  cbn [is_empty]. cbv zeta.
  unfold query_libur_days.
  rewrite merge_left_group_count, map_map.
  rewrite sort_by_map with (key := a_full_name) by reflexivity.
  rewrite sort_by_id by exact Hs.
  apply map_ext. intros r. unfold row_of, count_between. cbn [fst snd].
  now destruct (filter (fun k => k =? a_id r) _).
Qed.

Lemma length_filter_map {A B : Type} (f : A -> B) (p : B -> bool) (l : list A) :
  List.length (filter p (map f l))
  = List.length (filter (fun x => p (f x)) l).
Proof.
  induction l as [|x l IH]; simpl; [reflexivity|].
  destruct (p (f x)); simpl; now rewrite IH.
Qed.

Lemma filter_filter {A : Type} (p q : A -> bool) (l : list A) :
  filter p (filter q l) = filter (fun x => p x && q x) l.
Proof.
  induction l as [|x l IH]; simpl; [reflexivity|].
  destruct (q x); simpl; rewrite ?andb_true_r, ?andb_false_r.
  - destruct (p x); now rewrite IH.
  - exact IH.
Qed.

(** On ISO texts [BETWEEN] selects the calendar range. *)
Lemma between_in_range (s e wd : date) (r : override) :
  valid_date s = true -> valid_date e = true -> valid_date wd = true ->
  work_date r = isoformat wd ->
  between (isoformat s) (isoformat e) r = in_range s e (work_date r).
Proof.
  intros Vs Ve Vw E. unfold between, in_range.
  rewrite E, fromisoformat_isoformat by assumption.
  now rewrite !isoformat_leb by assumption.
Qed.

Lemma count_between_spec (s e : date) (d : db) (eid : Z) :
  iso_dates d -> valid_date s = true -> valid_date e = true ->
  count_between (isoformat s) (isoformat e) d eid = spec_absent_days s e d eid.
Proof.
  intros I Vs Ve. unfold count_between, spec_absent_days.
  rewrite length_filter_map, filter_filter. do 2 f_equal.
  apply filter_ext_in. intros r Hr.
  destruct (I r Hr) as (wd & Vw & E).
  now rewrite (between_in_range s e wd r).
Qed.

(** The report of the source is the report of the specification. *)
Lemma build_report_spec (s e : date) (d : db) :
  iso_dates d -> valid_date s = true -> valid_date e = true ->
  build_report s e d = map (spec_row s e d) (get_active_employees d).
Proof.
  intros I Vs Ve. rewrite build_report_rows.
  apply map_ext. intros a. unfold row_of, spec_row, spec_total_days, days_between.
  cbv zeta. now rewrite count_between_spec.
Qed.

(** ** Running statements *)

Lemma run_execute (stmt : db -> result db) (d : db) :
  run (execute stmt) d = match stmt d with Ok d' => d' | Raise _ => d end.
Proof. unfold run, execute. now destruct (stmt d). Qed.

(** A property kept by every iteration is kept by the loop, whether or
    not it runs to its end. *)
Lemma for_each_preserves {A : Type} (P : db -> Prop) (f : A -> M unit)
  (l : list A) :
  (forall x d, In x l -> P d -> P (run (f x) d)) ->
  forall d, P d -> P (run (for_each f l) d).
Proof.
  induction l as [|x l IH]; intros Hf d Hd; [exact Hd|].
  assert (P (run (f x) d)) as Hx by (apply Hf; [now left|exact Hd]).
  unfold run in *. simpl. unfold bind.
  destruct (f x d) as [[[]|e] d1]; simpl in *; [|exact Hx].
  apply IH; [|exact Hx]. intros y d2 Hy. apply Hf. now right.
Qed.

Lemma same_pair_spec (eid : Z) (wd : str) (r : override) :
  same_pair eid wd r = true <-> pair_of r = (eid, wd).
Proof.
  unfold same_pair, pair_of.
  rewrite andb_true_iff, Z.eqb_eq, str_eqb_eq.
  split; [intros [-> ->]; reflexivity|intros [= -> ->]; auto].
Qed.

Lemma existsb_same_pair (eid : Z) (wd : str) (l : list override) :
  existsb (same_pair eid wd) l = true <-> In (eid, wd) (map pair_of l).
Proof.
  rewrite existsb_exists, in_map_iff.
  split; intros (r & H1 & H2); exists r.
  - apply same_pair_spec in H2. auto.
  - split; [exact H2|]. now apply same_pair_spec.
Qed.

Lemma existsb_emp_id (eid : Z) (l : list employee) :
  existsb (fun e => emp_id e =? eid) l = true <-> In eid (map emp_id l).
Proof.
  rewrite existsb_exists, in_map_iff.
  split; intros (e & H1 & H2); exists e.
  - apply Z.eqb_eq in H2. auto.
  - split; [exact H2|]. now apply Z.eqb_eq.
Qed.

(** Deleting rows keeps the pairs distinct. *)
Lemma unique_pairs_filter (keep : override -> bool) (rows : list override) :
  NoDup (map pair_of rows) -> NoDup (map pair_of (filter keep rows)).
Proof.
  induction rows as [|r rows IH]; cbn [filter map]; [auto|].
  intros N. apply NoDup_cons_iff in N as [Hr N].
  destruct (keep r); cbn [map]; [|auto].
  apply NoDup_cons; [|auto].
  intros (r' & E & Hin)%in_map_iff. apply filter_In in Hin as [Hin _].
  apply Hr. rewrite <- E. now apply in_map.
Qed.

Lemma NoDup_snoc {A : Type} (x : A) (l : list A) :
  NoDup l -> ~ In x l -> NoDup (l ++ [x]).
Proof.
  induction 1 as [|y l Hy Hl IH]; simpl; intros Hx.
  - constructor; [auto|constructor].
  - constructor.
    + rewrite in_app_iff. simpl. intuition congruence.
    + apply IH. tauto.
Qed.

(** ** The statements keep the database consistent *)

Lemma pair_of_set_notes (eid : Z) (wd notes : str) (r : override) :
  pair_of (set_notes eid wd notes r) = pair_of r.
Proof. unfold set_notes. now destruct (same_pair eid wd r). Qed.

Lemma upsert_override_consistent (eid : Z) (wd : date) (notes now : str)
  (d d' : db) :
  valid_date wd = true -> consistent d ->
  upsert_override eid (isoformat wd) notes now d = Ok d' -> consistent d'.
Proof.
  intros V (U & R & I). unfold upsert_override.
  destruct (existsb (same_pair eid (isoformat wd)) (attendance_overrides d))
    eqn:Ex.
  - intros [= <-]. unfold consistent, unique_pairs, references_ok, iso_dates.
    cbn [attendance_overrides employees].
    repeat split.
    + rewrite map_map.
      erewrite map_ext; [exact U|]. intros r. apply pair_of_set_notes.
    + intros r (r0 & <- & H0)%in_map_iff.
      replace (employee_id (set_notes eid (isoformat wd) notes r0))
        with (employee_id r0); [auto|].
      unfold set_notes. now destruct (same_pair _ _ r0).
    + intros r (r0 & <- & H0)%in_map_iff.
      destruct (I r0 H0) as (w & Vw & E). exists w. split; [exact Vw|].
      rewrite <- E. unfold set_notes. now destruct (same_pair _ _ r0).
  - destruct (existsb (fun e => emp_id e =? eid) (employees d)) eqn:Fk;
      [|discriminate].
    intros [= <-]. unfold consistent, unique_pairs, references_ok, iso_dates.
    cbn [attendance_overrides employees].
    repeat split.
    + rewrite map_app. cbn [map].
      apply NoDup_snoc; [exact U|].
      intros Hin.
      apply (proj2 (existsb_same_pair eid (isoformat wd) _)) in Hin.
      congruence.
    + intros r [H|[<-|[]]]%in_app_iff; [auto|].
      now apply existsb_emp_id.
    + intros r [H|[<-|[]]]%in_app_iff; [auto|]. now exists wd.
Qed.

Lemma delete_override_consistent (eid : Z) (wd : str) (d d' : db) :
  consistent d -> delete_override eid wd d = Ok d' -> consistent d'.
Proof.
  intros (U & R & I) [= <-].
  unfold consistent, unique_pairs, references_ok, iso_dates.
  cbn [attendance_overrides employees].
  repeat split.
  - now apply unique_pairs_filter.
  - intros r [Hr _]%filter_In. auto.
  - intros r [Hr _]%filter_In. auto.
Qed.

Lemma insert_employee_consistent (name : str) (code : option str) (now : str)
  (d d' : db) :
  consistent d -> insert_employee name code now d = Ok d' -> consistent d'.
Proof.
  intros (U & R & I). unfold insert_employee.
  destruct (match code with Some c => code_in_use c d | None => false end);
    [discriminate|].
  intros [= <-]. unfold consistent, unique_pairs, references_ok, iso_dates.
  cbn [attendance_overrides employees].
  repeat split; auto.
  intros r Hr. rewrite map_app, in_app_iff. left. auto.
Qed.

Lemma update_is_active_consistent (flag id : Z) (d d' : db) :
  consistent d -> update_is_active flag id d = Ok d' -> consistent d'.
Proof.
  intros (U & R & I) [= <-].
  unfold consistent, unique_pairs, references_ok, iso_dates.
  cbn [attendance_overrides employees].
  repeat split; auto.
  intros r Hr. rewrite map_map.
  erewrite map_ext; [apply R, Hr|].
  intros e. now destruct (emp_id e =? id).
Qed.

(** Removing an employee takes the rows that refer to it along. *)
Lemma delete_employee_consistent (id : Z) (d d' : db) :
  consistent d -> delete_employee id d = Ok d' -> consistent d'.
Proof.
  intros (U & R & I) [= <-].
  unfold consistent, unique_pairs, references_ok, iso_dates.
  cbn [attendance_overrides employees].
  repeat split.
  - now apply unique_pairs_filter.
  - intros r [Hr Hn]%filter_In.
    apply R in Hr. apply in_map_iff in Hr as (e & E & He).
    apply in_map_iff. exists e. split; [exact E|].
    apply filter_In. split; [exact He|]. now rewrite E.
  - intros r [Hr _]%filter_In. auto.
Qed.

Lemma execute_consistent (stmt : db -> result db) (d : db) :
  (forall d', stmt d = Ok d' -> consistent d') ->
  consistent d -> consistent (run (execute stmt) d).
Proof.
  intros H Hd. rewrite run_execute.
  destruct (stmt d) as [d'|e]; [now apply H|exact Hd].
Qed.

Lemma set_libur_consistent (ids : list Z) (wd : date) (notes now : str) (d : db) :
  valid_date wd = true -> consistent d ->
  consistent (run (set_libur ids wd notes now) d).
Proof.
  intros V. unfold set_libur. apply for_each_preserves.
  intros eid d0 _ H0. apply execute_consistent; [|exact H0].
  intros d'. now apply upsert_override_consistent.
Qed.

Lemma clear_override_consistent (ids : list Z) (wd : date) (d : db) :
  consistent d -> consistent (run (clear_override ids wd) d).
Proof.
  unfold clear_override. apply for_each_preserves.
  intros eid d0 _ H0. apply execute_consistent; [|exact H0].
  intros d'. now apply delete_override_consistent.
Qed.

Lemma btn_add_emp_consistent (name code now : str) (d : db) :
  consistent d -> consistent (run (btn_add_emp name code now) d).
Proof.
  intros H. unfold run, btn_add_emp.
  destruct (is_empty (strip name)); [exact H|].
  pose proof (execute_consistent
                (insert_employee (strip name) (or_none (strip code)) now) d
                (fun d' => insert_employee_consistent _ _ _ d d' H) H) as Hc.
  unfold run in Hc.
  destruct (execute _ d) as [[[]|[]] d']; exact Hc.
Qed.

Lemma perform_consistent (a : action) (d : db) :
  well_formed a = true -> consistent d -> consistent (perform a d).
Proof.
  destruct a as [name code now|st id|ids wd notes now|ids wd|id];
    cbn [perform well_formed]; intros V H.
  - now apply btn_add_emp_consistent.
  - apply execute_consistent; [|exact H].
    intros d1. now apply update_is_active_consistent.
  - now apply set_libur_consistent.
  - now apply clear_override_consistent.
  - apply execute_consistent; [|exact H].
    intros d1. now apply delete_employee_consistent.
Qed.

(** Every reachable state is consistent. *)
Lemma reachable_consistent (d : db) : reachable d -> consistent d.
Proof.
  induction 1 as [|d a _ IH V].
  - repeat split.
    + constructor.
    + intros r [].
    + intros r [].
  - now apply perform_consistent.
Qed.

Lemma reachable_perform_all (acts : list action) (d : db) :
  reachable d -> forallb well_formed acts = true ->
  reachable (perform_all acts d).
Proof.
  unfold perform_all. revert d.
  induction acts as [|a acts IH]; intros d R; cbn [forallb fold_left];
    [auto|].
  intros [Va Vs]%andb_true_iff. apply IH; [|exact Vs].
  now apply reachable_step.
Qed.

(** ** Rows of a pair *)

Lemma filter_same_pair_nil (eid : Z) (wd : str) (l : list override) :
  ~ In (eid, wd) (map pair_of l) -> filter (same_pair eid wd) l = [].
Proof.
  induction l as [|x l IH]; simpl; [reflexivity|].
  intros H. destruct (same_pair eid wd x) eqn:E.
  - apply same_pair_spec in E. tauto.
  - apply IH. tauto.
Qed.

Lemma filter_same_pair_unique (eid : Z) (wd : str) (l : list override)
  (r : override) :
  NoDup (map pair_of l) -> In r l -> pair_of r = (eid, wd) ->
  filter (same_pair eid wd) l = [r].
Proof.
  induction l as [|x l IH]; simpl; [tauto|].
  intros N Hr E. inversion N as [|? ? Hx Hl]; subst.
  destruct (same_pair eid wd x) eqn:S.
  - apply same_pair_spec in S.
    destruct Hr as [->|Hr].
    + f_equal. apply filter_same_pair_nil. congruence.
    + exfalso. apply Hx. rewrite S, <- E. now apply in_map.
  - destruct Hr as [->|Hr]; [|auto].
    apply same_pair_spec in E. congruence.
Qed.

Lemma filter_same_pair_set_notes (eid eid' : Z) (wd notes : str)
  (l : list override) :
  filter (same_pair eid wd) (map (set_notes eid' wd notes) l)
  = map (set_notes eid' wd notes) (filter (same_pair eid wd) l).
Proof.
  induction l as [|x l IH]; simpl; [reflexivity|].
  replace (same_pair eid wd (set_notes eid' wd notes x))
    with (same_pair eid wd x).
  - destruct (same_pair eid wd x); simpl; now rewrite IH.
  - unfold set_notes. now destruct (same_pair eid' wd x).
Qed.

Lemma notes_set_notes (eid : Z) (wd n : str) (r : override) :
  same_pair eid wd r = true -> notes (set_notes eid wd n r) = Some n.
Proof. unfold set_notes. now intros ->. Qed.

(** An upsert with note [n] keeps every pair that already has its single
    row with note [n] in that condition. *)
Lemma upsert_override_keeps_note (i j : Z) (wd : date) (n now : str) (d : db) :
  one_row_with_note i wd n d ->
  one_row_with_note i wd n
    (run (execute (upsert_override j (isoformat wd) n now)) d).
Proof.
  intros (r & Hr & Hn). rewrite run_execute. unfold upsert_override.
  destruct (existsb (same_pair j (isoformat wd)) (attendance_overrides d))
    eqn:Ex.
  - exists (set_notes j (isoformat wd) n r). unfold rows_of_pair in *.
    cbn [attendance_overrides]. rewrite filter_same_pair_set_notes, Hr.
    split; [reflexivity|].
    unfold set_notes. now destruct (same_pair j (isoformat wd) r).
  - destruct (existsb (fun e => emp_id e =? j) (employees d));
      [|now exists r].
    exists r. unfold rows_of_pair in *. cbn [attendance_overrides].
    rewrite filter_app, Hr. cbn [filter].
    destruct (same_pair i (isoformat wd) _) eqn:S; [|now split].
    exfalso. apply same_pair_spec in S. injection S as <-.
    assert (In r (filter (same_pair j (isoformat wd)) (attendance_overrides d)))
      as [Hin Hs]%filter_In by (rewrite Hr; now left).
    assert (existsb (same_pair j (isoformat wd)) (attendance_overrides d) = true)
      by (apply existsb_exists; eauto).
    congruence.
Qed.

(** An upsert for an existing employee leaves the pair with one row that
    carries the note. *)
Lemma upsert_override_sets_note (i : Z) (wd : date) (n now : str) (d : db) :
  unique_pairs d -> In i (map emp_id (employees d)) ->
  exists d', upsert_override i (isoformat wd) n now d = Ok d'
             /\ employees d' = employees d
             /\ one_row_with_note i wd n d'.
Proof.
  intros U Hi. unfold upsert_override.
  destruct (existsb (same_pair i (isoformat wd)) (attendance_overrides d))
    eqn:Ex.
  - eexists. split; [reflexivity|]. split; [reflexivity|].
    apply existsb_exists in Ex as (r & Hr & S).
    exists (set_notes i (isoformat wd) n r). unfold rows_of_pair.
    cbn [attendance_overrides]. rewrite filter_same_pair_set_notes.
    rewrite (filter_same_pair_unique _ _ _ r U Hr)
      by now apply same_pair_spec.
    split; [reflexivity|]. now apply notes_set_notes.
  - apply existsb_emp_id in Hi. rewrite Hi.
    eexists. split; [reflexivity|]. split; [reflexivity|].
    eexists. unfold rows_of_pair. cbn [attendance_overrides].
    rewrite filter_app, filter_same_pair_nil.
    + cbn [filter app]. unfold same_pair at 1. cbn [employee_id work_date].
      rewrite Z.eqb_refl, str_eqb_refl. cbn [andb]. split; reflexivity.
    + rewrite <- existsb_same_pair. congruence.
Qed.

Lemma for_each_cons {A : Type} (f : A -> M unit) (x : A) (l : list A) (d : db) :
  for_each f (x :: l) d
  = match f x d with
    | (Ok _, d') => for_each f l d'
    | (Raise e, d') => (Raise e, d')
    end.
Proof. reflexivity. Qed.

Lemma execute_ok (stmt : db -> result db) (d d' : db) :
  stmt d = Ok d' -> execute stmt d = (Ok tt, d').
Proof. unfold execute. now intros ->. Qed.

(** [set_libur] for existing employees raises nothing and leaves each of
    the pairs with one row that carries the note. *)
Lemma set_libur_sets_note (ids : list Z) (wd : date) (n now : str) (d : db) :
  valid_date wd = true -> consistent d ->
  (forall i, In i ids -> In i (map emp_id (employees d))) ->
  fst (set_libur ids wd n now d) = Ok tt
  /\ employees (run (set_libur ids wd n now) d) = employees d
  /\ forall i, In i ids ->
               one_row_with_note i wd n (run (set_libur ids wd n now) d).
Proof.
  intros V. unfold set_libur, run.
  revert d. induction ids as [|j ids IH]; intros d C He.
  - repeat split. intros i [].
  - rewrite for_each_cons.
    destruct (upsert_override_sets_note j wd n now d) as (d1 & E1 & Ee & Q1).
    { apply C. } { apply He. now left. }
    rewrite (execute_ok _ _ _ E1).
    assert (consistent d1) as C1
        by (eapply upsert_override_consistent; eauto).
    destruct (IH d1 C1) as (I1 & I2 & I3).
    { intros i Hi. rewrite Ee. apply He. now right. }
    split; [exact I1|]. split; [congruence|].
    intros i [<-|Hi]; [|now apply I3].
    apply (for_each_preserves (one_row_with_note j wd n)); [|exact Q1].
    intros x d2 _. apply upsert_override_keeps_note.
Qed.

(** ** Active employees *)

Lemma In_get_active_employees (a : active_row) (d : db) :
  In a (get_active_employees d)
  <-> exists emp, In emp (employees d) /\ is_active emp = 1
                  /\ select_active emp = a.
Proof.
  unfold get_active_employees. rewrite in_map_iff.
  split; intros (emp & H1 & H2).
  - exists emp.
    apply (Permutation_in _ (sort_by_perm full_name _)) in H2.
    apply filter_In in H2 as [H2 H3]. apply Z.eqb_eq in H3. auto.
  - destruct H2 as (H2 & <-). exists emp. split; [reflexivity|].
    apply (Permutation_in _ (Permutation_sym (sort_by_perm full_name _))).
    apply filter_In. split; [tauto|]. apply Z.eqb_eq. tauto.
Qed.

Lemma get_active_employees_none (d : db) :
  (forall emp, In emp (employees d) -> is_active emp <> 1) ->
  get_active_employees d = [].
Proof.
  intros H. destruct (get_active_employees d) as [|a l] eqn:E; [reflexivity|].
  assert (In a (get_active_employees d)) as Ha by (rewrite E; now left).
  apply In_get_active_employees in Ha as (emp & H1 & H2 & _).
  now apply H in H1.
Qed.

(** A state given by a list of actions is reachable. *)
Ltac reach :=
  apply reachable_perform_all; [exact reachable_init|reflexivity].

(** ** The report *)

(** C1: for dates start <= end and every database state, every row of the
    report satisfies masuk_days + libur_days = total_days, where total_days
    is the inclusive day count (end - start) + 1; and for the range
    2024-01-01..2024-01-31 an active employee with exactly two overrides in
    the range gets masuk_days = 29 and libur_days = 2. *)
Theorem build_report_days_add_up :
  (forall (s e : date) (d : db) (row : report_row),
      toordinal s <= toordinal e ->
      In row (build_report s e d) ->
      masuk_days row + libur_days row = total_days row
      /\ total_days row = toordinal e - toordinal s + 1
      /\ 1 <= total_days row)
  /\ (forall (d : db) (emp : employee),
         reachable d ->
         In emp (employees d) -> is_active emp = 1 ->
         spec_absent_days jan1 jan31 d (emp_id emp) = 2 ->
         In (mkreport (full_name emp) (employee_code emp) 31 29 2)
            (build_report jan1 jan31 d)).
Proof.
  split.
  - intros s e d row Hse Hrow. rewrite build_report_rows in Hrow.
    apply in_map_iff in Hrow as (a & <- & _).
    unfold row_of, days_between. cbn [masuk_days libur_days total_days]. lia.
  - intros d emp R Hin Hact Hcnt.
    apply reachable_consistent in R as (_ & _ & I).
    rewrite build_report_spec by (exact I || reflexivity).
    apply in_map_iff. exists (select_active emp). split.
    + unfold spec_row. cbn [select_active a_id a_full_name a_employee_code].
      rewrite Hcnt. reflexivity.
    + apply In_get_active_employees. eauto.
Qed.

Lemma build_report_days_add_up_witness :
  (29 + 2 = 31 /\ 31 = toordinal jan31 - toordinal jan1 + 1 /\ 1 <= 31)
  /\ In (mkreport (py "Andi Pratama") (Some (py "EMP-001")) 31 29 2)
        (build_report jan1 jan31 db_example).
Proof.
  split.
  - apply (proj1 build_report_days_add_up jan1 jan31 db_example
             (mkreport (py "Andi Pratama") (Some (py "EMP-001")) 31 29 2)).
    + vm_compute. discriminate.
    + vm_compute. auto.
  - apply (proj2 build_report_days_add_up db_example
             (mkemployee 1 (py "Andi Pratama") (Some (py "EMP-001")) 1 t0)).
    + unfold db_example. reach.
    + vm_compute. auto.
    + reflexivity.
    + reflexivity.
Defined.

(** C2: for every active employee and every inclusive date range, the
    libur_days of the employee's row is the number of override rows of that
    employee whose work date lies in the range; an active employee without
    overrides in the range gets libur_days = 0 and masuk_days = total_days. *)
Theorem build_report_absent_days (s e : date) (d : db) :
  reachable d -> valid_date s = true -> valid_date e = true ->
  build_report s e d = map (spec_row s e d) (get_active_employees d)
  /\ (forall emp, In emp (employees d) -> is_active emp = 1 ->
        exists row,
          In row (build_report s e d)
          /\ r_full_name row = full_name emp
          /\ r_employee_code row = employee_code emp
          /\ libur_days row = spec_absent_days s e d (emp_id emp)
          /\ masuk_days row = total_days row - libur_days row
          /\ (spec_absent_days s e d (emp_id emp) = 0 ->
              libur_days row = 0 /\ masuk_days row = total_days row)).
Proof.
  intros R Vs Ve.
  apply reachable_consistent in R as (_ & _ & I).
  pose proof (build_report_spec s e d I Vs Ve) as E.
  split; [exact E|].
  intros emp Hin Hact. exists (spec_row s e d (select_active emp)).
  split.
  - rewrite E. apply in_map. apply In_get_active_employees. eauto.
  - unfold spec_row.
    cbn [select_active a_id a_full_name a_employee_code r_full_name
         r_employee_code libur_days masuk_days total_days].
    split; [reflexivity|]. split; [reflexivity|]. split; [reflexivity|].
    split; [reflexivity|]. intros ->. split; [reflexivity|lia].
Qed.

Lemma build_report_absent_days_witness :
  build_report jan1 (mkdate 2024 2 29) db_example
  = map (spec_row jan1 (mkdate 2024 2 29) db_example)
        (get_active_employees db_example).
Proof.
  apply (build_report_absent_days jan1 (mkdate 2024 2 29) db_example).
  - unfold db_example. reach.
  - reflexivity.
  - reflexivity.
Defined.

(** C6: the rows of the report are the rows of the employees with
    is_active = 1, one each, in ascending order of full name, and without
    active employees the report is empty. *)
Theorem build_report_sorted (s e : date) (d : db) :
  sorted_by r_full_name (build_report s e d)
  /\ Permutation (build_report s e d)
                 (map (fun emp => row_of s e d (select_active emp))
                      (filter (fun emp => is_active emp =? 1) (employees d)))
  /\ ((forall emp, In emp (employees d) -> is_active emp <> 1) ->
      build_report s e d = []).
Proof.
  split; [|split].
  - unfold build_report. destruct (is_empty _); [constructor|].
    apply sort_by_sorted.
  - rewrite build_report_rows. unfold get_active_employees.
    rewrite map_map. apply Permutation_map, sort_by_perm.
  - intros H. rewrite build_report_rows.
    now rewrite get_active_employees_none.
Qed.

Lemma build_report_sorted_witness :
  build_report jan1 jan31 db_unsorted
  = [mkreport (py "Andi") (Some (py "A-1")) 31 31 0;
     mkreport (py "Mira") None 31 30 1;
     mkreport (py "Zaki") None 31 29 2]
  /\ sorted_by r_full_name (build_report jan1 jan31 db_unsorted)
  /\ Permutation (build_report jan1 jan31 db_unsorted)
                 (map (fun emp => row_of jan1 jan31 db_unsorted
                                         (select_active emp))
                      (filter (fun emp => is_active emp =? 1)
                              (employees db_unsorted)))
  /\ build_report jan1 jan31
       (run (btn_save_status Nonaktif 1)
            (run (btn_add_emp (py "Andi") (py "") t0) init_db))
     = [].
Proof.
  split; [reflexivity|].
  split; [apply (build_report_sorted jan1 jan31 db_unsorted)|].
  split; [apply (build_report_sorted jan1 jan31 db_unsorted)|].
  apply build_report_sorted.
  vm_compute. intros emp [<-|[]]. discriminate.
Defined.

(** ** Overrides *)

(** C3: in every reachable state there is at most one override row per
    (employee, date) pair, and two calls of set_libur for the same pair leave
    exactly one row for it, with the note of the second call. *)
Theorem set_libur_one_row_per_pair :
  (forall d, reachable d -> unique_pairs d)
  /\ (forall (d : db) (ids1 ids2 : list Z) (eid : Z) (wd : date)
             (n1 n2 now1 now2 : str),
         reachable d -> valid_date wd = true ->
         (forall i, In i (ids1 ++ ids2) -> In i (map emp_id (employees d))) ->
         In eid ids1 -> In eid ids2 ->
         let d1 := run (set_libur ids1 wd n1 now1) d in
         let d2 := run (set_libur ids2 wd n2 now2) d1 in
         fst (set_libur ids1 wd n1 now1 d) = Ok tt
         /\ fst (set_libur ids2 wd n2 now2 d1) = Ok tt
         /\ one_row_with_note eid wd n1 d1
         /\ one_row_with_note eid wd n2 d2).
Proof.
  split.
  - intros d R. now apply reachable_consistent in R as (U & _).
  - intros d ids1 ids2 eid wd n1 n2 now1 now2 R V He H1 H2 d1 d2.
    apply reachable_consistent in R.
    destruct (set_libur_sets_note ids1 wd n1 now1 d V R) as (A1 & A2 & A3).
    { intros i Hi. apply He, in_app_iff. now left. }
    assert (consistent d1) as C1 by now apply set_libur_consistent.
    destruct (set_libur_sets_note ids2 wd n2 now2 d1 V C1) as (B1 & B2 & B3).
    { intros i Hi. fold d1 in A2. rewrite A2. apply He, in_app_iff. now right. }
    auto.
Qed.

Lemma set_libur_one_row_per_pair_witness :
  unique_pairs db_example
  /\ one_row_with_note 2 (mkdate 2024 1 1) (py "sakit")
       (run (set_libur [2] (mkdate 2024 1 1) (py "sakit") t0)
            (run (set_libur [1; 2] (mkdate 2024 1 1) (py "libur") t0)
                 db_example)).
Proof.
  split.
  - apply (proj1 set_libur_one_row_per_pair). unfold db_example. reach.
  - apply (proj2 set_libur_one_row_per_pair db_example [1; 2] [2] 2
             (mkdate 2024 1 1) (py "libur") (py "sakit") t0 t0).
    + unfold db_example. reach.
    + reflexivity.
    + vm_compute. intuition.
    + vm_compute. auto.
    + vm_compute. auto.
Defined.

Lemma filter_negb_all {A : Type} (p : A -> bool) (l : list A) :
  filter p l = [] -> filter (fun x => negb (p x)) l = l.
Proof.
  induction l as [|x l IH]; simpl; [reflexivity|].
  destruct (p x); simpl; [discriminate|].
  intros H. now rewrite IH.
Qed.

Lemma filter_not_same_pair (eid : Z) (wd : str) (l : list override) :
  ~ In (eid, wd) (map pair_of l) ->
  filter (fun r => negb (same_pair eid wd r)) l = l.
Proof.
  intros H. apply filter_negb_all. now apply filter_same_pair_nil.
Qed.

Lemma db_eta (d : db) :
  mkdb (employees d) (attendance_overrides d) (seq_employees d) (seq_overrides d)
  = d.
Proof. now destruct d. Qed.

(** C4: for pairs without an override row clear_override raises nothing and
    leaves the whole database as it was; for a pair that has a row it
    deletes exactly that row. *)
Theorem clear_override_effect :
  (forall (ids : list Z) (wd : date) (d : db),
      (forall eid, In eid ids -> rows_of_pair eid wd d = []) ->
      clear_override ids wd d = (Ok tt, d))
  /\ (forall (eid : Z) (wd : date) (d : db) (r : override),
         unique_pairs d ->
         In r (attendance_overrides d) -> pair_of r = (eid, isoformat wd) ->
         exists l1 l2,
           attendance_overrides d = l1 ++ r :: l2
           /\ clear_override [eid] wd d
              = (Ok tt, mkdb (employees d) (l1 ++ l2)
                             (seq_employees d) (seq_overrides d))).
Proof.
  split.
  - intros ids wd d. unfold clear_override.
    induction ids as [|eid ids IH]; intros H; [reflexivity|].
    rewrite for_each_cons.
    assert (delete_override eid (isoformat wd) d = Ok d) as E.
    { unfold delete_override. rewrite filter_negb_all.
      - now rewrite db_eta.
      - apply H. now left. }
    rewrite (execute_ok _ _ _ E). apply IH.
    intros i Hi. apply H. now right.
  - intros eid wd d r U Hr Hp.
    destruct (in_split _ _ Hr) as (l1 & l2 & E).
    exists l1, l2. split; [exact E|].
    unfold clear_override. rewrite for_each_cons.
    erewrite execute_ok; [reflexivity|].
    unfold delete_override. do 2 f_equal.
    unfold unique_pairs in U. rewrite E in U |- *.
    rewrite map_app in U. cbn [map] in U.
    apply NoDup_remove_2 in U. rewrite Hp, in_app_iff in U.
    rewrite filter_app. cbn [filter].
    apply same_pair_spec in Hp. rewrite Hp. cbn [negb].
    rewrite !filter_not_same_pair; tauto.
Qed.

Lemma clear_override_effect_witness :
  clear_override [2] (mkdate 2024 1 15) db_example = (Ok tt, db_example)
  /\ exists l1 l2,
      attendance_overrides db_example
      = l1 ++ mkoverride 3 1 (py "2024-01-15") LIBUR (Some (py "izin pribadi")) t0
           :: l2
      /\ clear_override [1] (mkdate 2024 1 15) db_example
         = (Ok tt, mkdb (employees db_example) (l1 ++ l2)
                        (seq_employees db_example) (seq_overrides db_example)).
Proof.
  split.
  - apply (proj1 clear_override_effect).
    intros eid [<-|[]]. reflexivity.
  - apply (proj2 clear_override_effect).
    + vm_compute. repeat constructor; simpl; intuition discriminate.
    + vm_compute. auto.
    + reflexivity.
Defined.

(** C10: when the pair already has an override row, set_libur writes the
    status and notes columns of that row only: its id, its created_at, its
    employee and its date stay as they were, no row is added and no other
    row changes. *)
Theorem set_libur_updates_in_place (eid : Z) (wd : date) (n now : str) (d : db) :
  rows_of_pair eid wd d <> [] ->
  set_libur [eid] wd n now d
  = (Ok tt,
     mkdb (employees d)
          (map (set_notes eid (isoformat wd) n) (attendance_overrides d))
          (seq_employees d)
          (next_rowid (seq_overrides d) (map ovr_id (attendance_overrides d))))
  /\ forall r,
      ovr_id (set_notes eid (isoformat wd) n r) = ovr_id r
      /\ created_at (set_notes eid (isoformat wd) n r) = created_at r
      /\ employee_id (set_notes eid (isoformat wd) n r) = employee_id r
      /\ work_date (set_notes eid (isoformat wd) n r) = work_date r
      /\ (same_pair eid (isoformat wd) r = true ->
          notes (set_notes eid (isoformat wd) n r) = Some n)
      /\ (same_pair eid (isoformat wd) r = false ->
          set_notes eid (isoformat wd) n r = r).
Proof.
  intros H. split.
  - unfold set_libur. rewrite for_each_cons.
    erewrite execute_ok; [reflexivity|].
    unfold upsert_override.
    replace (existsb _ (attendance_overrides d)) with true; [reflexivity|].
    symmetry. unfold rows_of_pair in H.
    destruct (filter _ _) as [|r l] eqn:E; [congruence|].
    assert (In r (filter (same_pair eid (isoformat wd)) (attendance_overrides d)))
      as [H1 H2]%filter_In by (rewrite E; now left).
    apply existsb_exists. eauto.
  - intros r. unfold set_notes.
    destruct (same_pair eid (isoformat wd) r); repeat split; congruence.
Qed.

Lemma set_libur_updates_in_place_witness :
  map ovr_id (attendance_overrides
                (run (set_libur [1] (mkdate 2024 1 15) (py "sakit")
                                (py "2024-03-01T09:00:00")) db_example))
  = [1; 2; 3; 4]
  /\ map created_at (attendance_overrides
                       (run (set_libur [1] (mkdate 2024 1 15) (py "sakit")
                                       (py "2024-03-01T09:00:00")) db_example))
     = [t0; t0; t0; t0].
Proof.
  destruct (set_libur_updates_in_place 1 (mkdate 2024 1 15) (py "sakit")
              (py "2024-03-01T09:00:00") db_example) as [E _].
  - vm_compute. discriminate.
  - unfold run. rewrite E. vm_compute. split; reflexivity.
Defined.

(** ** Employees *)

Lemma next_rowid_above (seq : Z) (ids : list Z) :
  seq < next_rowid seq ids /\ forall i, In i ids -> i < next_rowid seq ids.
Proof.
  unfold next_rowid. induction ids as [|j ids [IH1 IH2]]; simpl.
  - split; [lia|tauto].
  - split; [lia|]. intros i [<-|Hi]; [lia|].
    specialize (IH2 i Hi). lia.
Qed.

Lemma for_each_employees {A : Type} (f : A -> M unit) (l : list A) (d : db) :
  (forall x d0, employees (run (f x) d0) = employees d0
                /\ seq_employees (run (f x) d0) = seq_employees d0) ->
  employees (run (for_each f l) d) = employees d
  /\ seq_employees (run (for_each f l) d) = seq_employees d.
Proof.
  intros H.
  apply (for_each_preserves
           (fun d' => employees d' = employees d
                      /\ seq_employees d' = seq_employees d)); [|auto].
  intros x d0 _ [E1 E2]. destruct (H x d0) as [F1 F2]. split; congruence.
Qed.

Lemma set_libur_frame (ids : list Z) (wd : date) (n now : str) (d : db) :
  employees (run (set_libur ids wd n now) d) = employees d
  /\ seq_employees (run (set_libur ids wd n now) d) = seq_employees d.
Proof.
  apply for_each_employees. intros eid d0. rewrite run_execute.
  unfold upsert_override.
  repeat match goal with |- context [if ?b then _ else _] => destruct b end;
    split; reflexivity.
Qed.

Lemma clear_override_frame (ids : list Z) (wd : date) (d : db) :
  employees (run (clear_override ids wd) d) = employees d
  /\ seq_employees (run (clear_override ids wd) d) = seq_employees d.
Proof.
  apply for_each_employees. intros eid d0. rewrite run_execute.
  split; reflexivity.
Qed.

(** What the "Tambah" button leaves behind: the database as it was, or one
    more row under a fresh identifier. *)
Lemma run_btn_add_emp (name code now : str) (d : db) :
  run (btn_add_emp name code now) d = d
  \/ exists id,
      seq_employees d < id
      /\ (forall e, In e (employees d) -> emp_id e < id)
      /\ run (btn_add_emp name code now) d
         = mkdb (employees d
                   ++ [mkemployee id (strip name) (or_none (strip code)) 1 now])
                (attendance_overrides d) id (seq_overrides d).
Proof.
  unfold run, btn_add_emp.
  destruct (is_empty (strip name)); [now left|].
  unfold execute, insert_employee.
  destruct (match or_none (strip code) with
            | Some c => code_in_use c d
            | None => false
            end); [now left|].
  right. exists (next_rowid (seq_employees d) (map emp_id (employees d))).
  split; [|split; [|reflexivity]].
  - apply (proj1 (next_rowid_above _ _)).
  - intros e He. apply (proj2 (next_rowid_above _ _)). now apply in_map.
Qed.

Lemma perform_ids_bounded (a : action) (d : db) :
  ids_bounded d -> ids_bounded (perform a d).
Proof.
  unfold ids_bounded.
  destruct a as [name code now|st id|ids wd notes now|ids wd|id];
    cbn [perform]; intros H e.
  - destruct (run_btn_add_emp name code now d) as [->|(id & H1 & H2 & ->)];
      [apply H|].
    cbn [employees seq_employees].
    intros [He|[<-|[]]]%in_app_iff; [|cbn [emp_id]; lia].
    specialize (H2 e He). lia.
  - unfold btn_save_status. rewrite run_execute.
    cbn [update_is_active employees seq_employees].
    intros (e0 & <- & He)%in_map_iff.
    specialize (H e0 He). now destruct (emp_id e0 =? id).
  - destruct (set_libur_frame ids wd notes now d) as [-> ->]. apply H.
  - destruct (clear_override_frame ids wd d) as [-> ->]. apply H.
  - rewrite run_execute. cbn [delete_employee employees seq_employees].
    intros [He _]%filter_In. now apply H.
Qed.

Lemma reachable_ids_bounded (d : db) : reachable d -> ids_bounded d.
Proof.
  induction 1 as [|d a _ IH _]; [intros e []|].
  now apply perform_ids_bounded.
Qed.

Lemma perform_switched_off (id : Z) (a : action) (d : db) :
  a <> SaveStatus Aktif id ->
  switched_off id d -> switched_off id (perform a d).
Proof.
  unfold switched_off.
  destruct a as [name code now|st id'|ids wd notes now|ids wd|id'];
    cbn [perform]; intros Na [B H].
  - destruct (run_btn_add_emp name code now d) as [->|(i & H1 & H2 & ->)];
      [now split|].
    cbn [employees seq_employees]. split; [lia|].
    intros emp [He|[<-|[]]]%in_app_iff; [now apply H|].
    cbn [emp_id]. lia.
  - unfold btn_save_status. rewrite run_execute.
    cbn [update_is_active employees seq_employees]. split; [exact B|].
    intros emp (e0 & <- & He)%in_map_iff.
    destruct (emp_id e0 =? id') eqn:E; cbn [emp_id is_active];
      [|now apply H].
    apply Z.eqb_eq in E. intros Hid.
    destruct st; [|reflexivity].
    exfalso. apply Na. congruence.
  - destruct (set_libur_frame ids wd notes now d) as [-> ->]. now split.
  - destruct (clear_override_frame ids wd d) as [-> ->]. now split.
  - rewrite run_execute. cbn [delete_employee employees seq_employees].
    split; [exact B|]. intros emp [He _]%filter_In. now apply H.
Qed.

Lemma perform_all_switched_off (id : Z) (acts : list action) (d : db) :
  Forall (fun a => a <> SaveStatus Aktif id) acts ->
  switched_off id d -> switched_off id (perform_all acts d).
Proof.
  unfold perform_all. intros F. revert d.
  induction F as [|a acts Ha _ IH]; intros d S; cbn [fold_left]; [exact S|].
  apply IH. now apply perform_switched_off.
Qed.

Lemma filter_map_comm {A B : Type} (f : A -> B) (p : B -> bool) (l : list A) :
  filter p (map f l) = map f (filter (fun x => p (f x)) l).
Proof.
  induction l as [|x l IH]; simpl; [reflexivity|].
  destruct (p (f x)); simpl; now rewrite IH.
Qed.

(** Deactivation takes the rows of the employee out of the active list
    and leaves the others in their order. *)
Lemma get_active_employees_deactivated (id : Z) (d : db) :
  get_active_employees (run (btn_save_status Nonaktif id) d)
  = filter (other_than id) (get_active_employees d).
Proof.
  unfold btn_save_status. rewrite run_execute.
  unfold get_active_employees. cbn [update_is_active employees].
  rewrite (filter_map_comm select_active (other_than id)).
  rewrite filter_sort_by, filter_filter. do 2 f_equal.
  induction (employees d) as [|x l IH]; [reflexivity|].
  cbn [map filter]. rewrite IH.
  unfold other_than. cbn [select_active a_id].
  destruct (emp_id x =? id); reflexivity.
Qed.

Lemma row_of_ext (s e : date) (d d' : db) (a : active_row) :
  attendance_overrides d' = attendance_overrides d ->
  row_of s e d' a = row_of s e d a.
Proof. intros E. unfold row_of, count_between. now rewrite E. Qed.

(** C5: deactivating an employee leaves the override table as it was and
    takes the employee's row out of the report; the report contains rows
    of employees with is_active = 1 only, so the row stays out of every
    later report until the employee is activated again. *)
Theorem deactivate_employee :
  (forall (id : Z) (d : db),
      let d' := perform (SaveStatus Nonaktif id) d in
      attendance_overrides d' = attendance_overrides d
      /\ get_active_employees d'
         = filter (other_than id) (get_active_employees d)
      /\ forall s e,
          build_report s e d'
          = map (row_of s e d) (filter (other_than id) (get_active_employees d)))
  /\ (forall (id : Z) (d : db) (acts : list action),
         reachable d -> In id (map emp_id (employees d)) ->
         Forall (fun a => a <> SaveStatus Aktif id) acts ->
         let d'' := perform_all acts (perform (SaveStatus Nonaktif id) d) in
         (forall a, In a (get_active_employees d'') -> a_id a <> id)
         /\ forall s e,
             build_report s e d''
             = map (row_of s e d'') (get_active_employees d'')).
Proof.
  split.
  - intros id d d'. subst d'. cbn [perform].
    assert (attendance_overrides (run (btn_save_status Nonaktif id) d)
            = attendance_overrides d) as E
        by (unfold btn_save_status; now rewrite run_execute).
    split; [exact E|]. split; [apply get_active_employees_deactivated|].
    intros s e. rewrite build_report_rows, get_active_employees_deactivated.
    apply map_ext. intros a. now apply row_of_ext.
  - intros id d acts R Hid F d''. split; [|intros; apply build_report_rows].
    assert (switched_off id (perform (SaveStatus Nonaktif id) d)) as S.
    { apply in_map_iff in Hid as (e0 & E0 & H0).
      apply reachable_ids_bounded in R. specialize (R e0 H0).
      cbn [perform]. unfold btn_save_status. rewrite run_execute.
      unfold switched_off.
      cbn [update_is_active employees seq_employees]. split; [lia|].
      intros emp (e1 & <- & H1)%in_map_iff.
      destruct (emp_id e1 =? id) eqn:E; cbn [emp_id is_active];
        [reflexivity|].
      apply Z.eqb_neq in E. tauto. }
    apply (perform_all_switched_off id acts _ F) in S as [_ S].
    intros a (emp & H1 & H2 & <-)%In_get_active_employees.
    cbn [select_active a_id]. intros Hid'.
    specialize (S emp H1 Hid'). lia.
Qed.

Lemma deactivate_employee_witness :
  Forall (fun a => a_id a <> 1)
         (get_active_employees
            (perform_all [SetLibur [1] jan31 (py "sakit") t0;
                          AddEmp (py "Citra") (py "") t0]
                         (perform (SaveStatus Nonaktif 1) db_example))).
Proof.
  apply Forall_forall.
  apply (proj2 deactivate_employee 1 db_example).
  - unfold db_example. reach.
  - vm_compute. auto.
  - repeat constructor; discriminate.
Defined.

(** C9: removing an employee row removes every override row that refers
    to it and no other, and in every reachable state each override row
    refers to an existing employee. *)
Theorem delete_employee_cascades :
  (forall (id : Z) (d : db),
      let d' := perform (DeleteEmployee id) d in
      ~ In id (map emp_id (employees d'))
      /\ forall r, In r (attendance_overrides d')
                   <-> In r (attendance_overrides d) /\ employee_id r <> id)
  /\ (forall d, reachable d -> references_ok d).
Proof.
  split.
  - intros id d d'. subst d'. cbn [perform]. rewrite run_execute.
    cbn [delete_employee employees attendance_overrides]. split.
    + intros (e & E & [_ He]%filter_In)%in_map_iff.
      rewrite E, Z.eqb_refl in He. discriminate.
    + intros r. rewrite filter_In, negb_true_iff, Z.eqb_neq. tauto.
  - intros d R. now apply reachable_consistent in R as (_ & F & _).
Qed.

Lemma delete_employee_cascades_witness :
  references_ok (perform (DeleteEmployee 1) db_example).
Proof.
  apply (proj2 delete_employee_cascades).
  apply reachable_step; [|reflexivity].
  unfold db_example. reach.
Defined.

(** ** Adding an employee *)

Lemma code_in_use_spec (c : str) (d : db) :
  code_in_use c d = true
  <-> exists e, In e (employees d) /\ employee_code e = Some c.
Proof.
  unfold code_in_use. rewrite existsb_exists.
  split; intros (e & He & H); exists e; split; auto.
  - destruct (employee_code e) as [c'|]; [|discriminate].
    apply str_eqb_eq in H. now subst.
  - rewrite H. apply str_eqb_refl.
Qed.

Lemma unique_check_spec (code : str) (d : db) :
  match or_none (strip code) with
  | Some c => code_in_use c d
  | None => false
  end = true
  <-> code_taken code d.
Proof.
  unfold code_taken, or_none.
  destruct (strip code) as [|c s] eqn:E; cbn [is_empty].
  - split; [discriminate|]. intros [N _]. now contradiction N.
  - rewrite code_in_use_spec. split; [|tauto].
    intros H. split; [discriminate|exact H].
Qed.

(** C7, amended: with a blank name nothing is inserted and the page shows
    a validation message; otherwise adding an employee fails with the
    uniqueness error, shown to the user, exactly when a non-empty code was
    entered that an employee row already carries, and succeeds in every
    other case; no exception escapes the handler. *)
Theorem btn_add_emp_outcome (name code now : str) (d : db) :
  (strip name = [] ->
   btn_add_emp name code now d
   = (Ok (error "Nama tidak boleh kosong."), d))
  /\ (strip name <> [] -> code_taken code d ->
      btn_add_emp name code now d
      = (Ok (error "Gagal: UNIQUE constraint failed: employees.employee_code"),
         d))
  /\ (strip name <> [] -> ~ code_taken code d ->
      exists id,
        ~ In id (map emp_id (employees d))
        /\ btn_add_emp name code now d
           = (Ok (success "Karyawan ditambahkan."),
              mkdb (employees d
                      ++ [mkemployee id (strip name) (or_none (strip code))
                                     1 now])
                   (attendance_overrides d) id (seq_overrides d)))
  /\ exists msg, fst (btn_add_emp name code now d) = Ok msg.
Proof.
  unfold btn_add_emp, execute, insert_employee.
  pose proof (unique_check_spec code d) as U.
  destruct (strip name) as [|c s] eqn:En; cbn [is_empty].
  - split; [reflexivity|].
    split; [intros N; now contradiction N|].
    split; [intros N; now contradiction N|].
    cbn [fst]. eauto.
  - split; [discriminate|].
    destruct (match or_none (strip code) with
              | Some c0 => code_in_use c0 d
              | None => false
              end).
    + split; [reflexivity|].
      split; [intros _ N; contradiction N; now apply U|].
      cbn [fst]. eauto.
    + split; [intros _ T; apply U in T; discriminate|].
      split; [|cbn [fst]; eauto].
      intros _ _. eexists. split; [|reflexivity].
      intros Hin.
      pose proof (proj2 (next_rowid_above (seq_employees d)
                                          (map emp_id (employees d))) _ Hin).
      lia.
Qed.

Lemma btn_add_emp_outcome_witness :
  btn_add_emp (py "Citra") (py " EMP-001 ") t0 db_example
  = (Ok (error "Gagal: UNIQUE constraint failed: employees.employee_code"),
     db_example)
  /\ btn_add_emp (py "  ") (py "EMP-009") t0 db_example
     = (Ok (error "Nama tidak boleh kosong."), db_example).
Proof.
  split.
  - apply (btn_add_emp_outcome (py "Citra") (py " EMP-001 ") t0 db_example).
    + vm_compute. discriminate.
    + split; [vm_compute; discriminate|].
      exists (mkemployee 1 (py "Andi Pratama") (Some (py "EMP-001")) 1 t0).
      vm_compute. auto.
  - apply (btn_add_emp_outcome (py "  ") (py "EMP-009") t0 db_example).
    reflexivity.
Defined.

(** With a blank name the handler inserts nothing, although no code is in
    use: the insertion does not succeed in every case without a clash. *)
Lemma btn_add_emp_blank_name :
  ~ (forall (name code now : str) (d : db),
        (code_taken code d ->
         exists msg, btn_add_emp name code now d = (Ok (error msg), d))
        /\ (~ code_taken code d ->
            exists row,
              employees (run (btn_add_emp name code now) d)
              = employees d ++ [row])).
Proof.
  intros H.
  destruct (H (py "  ") (py "") t0 init_db) as [_ H2].
  destruct H2 as [row E].
  - intros [N _]. now apply N.
  - vm_compute in E. discriminate.
Qed.

(** ** Calendar ranges *)

(** Subtracting one day moves the ordinal back by one and yields a date
    that the constructor accepts. *)
Lemma date_sub_one_day_ordinal (d d' : date) :
  valid_date d = true -> date_sub_one_day d = Ok d' ->
  toordinal d' = toordinal d - 1 /\ valid_date d' = true.
Proof.
  intros V. pose proof V as (Hy & Hm & Hd)%valid_date_fields.
  unfold date_sub_one_day, MINYEAR.
  destruct (1 <? day d) eqn:E1.
  - apply Z.ltb_lt in E1. intros [= <-]. split.
    + unfold toordinal. cbn [year month day]. lia.
    + unfold valid_date, MINYEAR, MAXYEAR. cbn [year month day].
      rewrite !andb_true_iff, !Z.leb_le. lia.
  - apply Z.ltb_ge in E1. assert (day d = 1) as D1 by lia.
    destruct (1 <? month d) eqn:E2.
    + apply Z.ltb_lt in E2. intros [= <-]. split.
      * unfold toordinal. cbn [year month day].
        pose proof (days_before_month_next (year d) (month d - 1)) as N.
        replace (month d - 1 + 1) with (month d) in N by lia. lia.
      * pose proof (days_in_month_pos (year d) (month d - 1)).
        unfold valid_date, MINYEAR, MAXYEAR. cbn [year month day].
        rewrite !andb_true_iff, !Z.leb_le. lia.
    + apply Z.ltb_ge in E2. assert (month d = 1) as M1 by lia.
      destruct (1 <? year d) eqn:E3; [|discriminate].
      apply Z.ltb_lt in E3. intros [= <-]. split.
      * unfold toordinal. cbn [year month day]. rewrite D1, M1.
        pose proof (days_before_year_succ (year d - 1)) as S.
        replace (year d - 1 + 1) with (year d) in S by lia.
        pose proof (days_before_month_december (year d - 1)) as Dec.
        replace (days_in_month (year d - 1) 12) with 31 in Dec by reflexivity.
        replace (days_before_month (year d) 1) with 0; [lia|].
        unfold days_before_month. reflexivity.
      * unfold valid_date, MINYEAR, MAXYEAR. cbn [year month day].
        replace (days_in_month (year d - 1) 12) with 31 by reflexivity.
        rewrite !andb_true_iff, !Z.leb_le. lia.
Qed.

Lemma as_c_int_ok (v : Z) : INT_MIN <= v <= INT_MAX -> as_c_int v = Ok v.
Proof.
  unfold as_c_int, INT_MIN, INT_MAX, LONG_MIN, LONG_MAX. intros H.
  replace (v <? -9223372036854775808) with false by (symmetry; apply Z.ltb_ge; lia).
  replace (9223372036854775807 <? v) with false by (symmetry; apply Z.ltb_ge; lia).
  replace (2147483647 <? v) with false by (symmetry; apply Z.ltb_ge; lia).
  replace (v <? -2147483648) with false by (symmetry; apply Z.ltb_ge; lia).
  reflexivity.
Qed.

Lemma date_new_ok (y m d : Z) :
  valid_date (mkdate y m d) = true -> date_new y m d = Ok (mkdate y m d).
Proof.
  intros (Hy & Hm & Hd)%valid_date_fields. cbn [year month day] in *.
  pose proof (days_in_month_pos y m Hm) as P.
  unfold date_new, MINYEAR, MAXYEAR.
  rewrite !as_c_int_ok by (unfold INT_MIN, INT_MAX; lia). cbn [rbind].
  assert (forall a b c, a <= b <= c -> (a <=? b) && (b <=? c) = true) as E
      by (intros; apply andb_true_iff; rewrite !Z.leb_le; lia).
  now rewrite !E.
Qed.

Lemma valid_first_of_month (y m : Z) :
  1 <= y <= 9999 -> 1 <= m <= 12 -> valid_date (mkdate y m 1) = true.
Proof.
  intros Hy Hm. pose proof (days_in_month_pos y m Hm).
  unfold valid_date, MINYEAR, MAXYEAR. cbn [year month day].
  rewrite !andb_true_iff, !Z.leb_le. lia.
Qed.

(** Before its conversion, [end] is the last day of the month. *)
Lemma month_range_end_last_day (y m : Z) :
  1 <= y <= 9999 -> 1 <= m <= 12 -> y < 9999 \/ m < 12 ->
  month_range_end y m = Ok (PyDate (mkdate y m (days_in_month y m))).
Proof.
  intros Hy Hm Hl. unfold month_range_end.
  destruct (m =? 12) eqn:E.
  - apply Z.eqb_eq in E. subst m.
    rewrite date_new_ok by (apply valid_first_of_month; lia).
    cbn [rbind]. unfold date_sub_timedelta_1, date_sub_one_day, MINYEAR.
    cbn [year month day]. rewrite Z.ltb_irrefl.
    replace (1 <? y + 1) with true by (symmetry; apply Z.ltb_lt; lia).
    cbn [rbind]. do 3 f_equal. lia.
  - apply Z.eqb_neq in E.
    rewrite date_new_ok by (apply valid_first_of_month; lia).
    cbn [rbind]. unfold date_sub_timedelta_1, date_sub_one_day.
    cbn [year month day]. rewrite Z.ltb_irrefl.
    replace (1 <? m + 1) with true by (symmetry; apply Z.ltb_lt; lia).
    cbn [rbind]. now replace (m + 1 - 1) with m by lia.
Qed.

(** The difference of a date and a timedelta is a [datetime.date]. *)
Lemma month_range_end_is_date (y m : Z) (v : pyvalue) :
  month_range_end y m = Ok v -> exists d, v = PyDate d.
Proof.
  unfold month_range_end, date_sub_timedelta_1.
  destruct (m =? 12);
    match goal with
    | |- context [date_new ?a ?b ?c] => destruct (date_new a b c) as [d0|]
    end; cbn [rbind]; try discriminate;
    destruct (date_sub_one_day d0); cbn [rbind]; try discriminate;
    intros [= <-]; eauto.
Qed.

Lemma month_range_never_returns (y m : Z) :
  exists e, month_range y m = Raise e.
Proof.
  unfold month_range.
  destruct (date_new y m 1); cbn [rbind]; [|eauto].
  destruct (month_range_end y m) as [v|] eqn:E; cbn [rbind]; [|eauto].
  apply month_range_end_is_date in E as [d ->].
  cbn [to_pydatetime rbind]. eauto.
Qed.

Lemma year_range_ok (y : Z) :
  1 <= y <= 9999 -> year_range y = Ok (mkdate y 1 1, mkdate y 12 31).
Proof.
  intros Hy. unfold year_range.
  rewrite date_new_ok by (apply valid_first_of_month; lia).
  cbn [rbind]. rewrite date_new_ok; [reflexivity|].
  unfold valid_date, MINYEAR, MAXYEAR. cbn [year month day].
  replace (days_in_month y 12) with 31 by reflexivity.
  rewrite !andb_true_iff, !Z.leb_le. lia.
Qed.

(** C8, as the code has it: [month_range] calls [to_pydatetime] on a
    [datetime.date], which has no such method, so every call ends in an
    exception, although the date computed just before is the last day of
    the month; [year_range] returns 1 January and 31 December. *)
Theorem month_range_raises :
  month_range 2024 1
  = Raise (AttributeError
             "'datetime.date' object has no attribute 'to_pydatetime'")
  /\ month_range_end 2024 1 = Ok (PyDate jan31)
  /\ (forall y m, exists e, month_range y m = Raise e)
  /\ year_range 2024 = Ok (mkdate 2024 1 1, mkdate 2024 12 31).
Proof.
  split; [reflexivity|]. split; [reflexivity|].
  split; [apply month_range_never_returns|reflexivity].
Qed.

(** ** Keys and flags *)

Lemma NoDup_map_kept {A B : Type} (f : A -> B) (keep : A -> bool) :
  forall rows : list A,
    NoDup (map f rows) -> NoDup (map f (filter keep rows)).
Proof.
  intros rows N. induction rows as [|r rows IH]; [exact N|].
  cbn [map filter] in *. apply NoDup_cons_iff in N as [Hr N].
  destruct (keep r); cbn [map]; [|auto].
  apply NoDup_cons; [|auto].
  intros (r' & E & Hin)%in_map_iff. apply filter_In in Hin as [Hin _].
  apply Hr. rewrite <- E. now apply in_map.
Qed.

Lemma codes_app (l1 l2 : list employee) : codes (l1 ++ l2) = codes l1 ++ codes l2.
Proof. unfold codes. apply flat_map_app. Qed.

Lemma In_codes (c : str) (l : list employee) :
  In c (codes l) <-> exists e, In e l /\ employee_code e = Some c.
Proof.
  unfold codes. rewrite in_flat_map. split; intros (e & He & H); exists e.
  - destruct (employee_code e) as [c'|]; [|destruct H].
    destruct H as [->|[]]. auto.
  - rewrite H. split; [exact He|now left].
Qed.

Lemma codes_cons (e : employee) (l : list employee) :
  codes (e :: l)
  = match employee_code e with Some c => c :: codes l | None => codes l end.
Proof. unfold codes. cbn [flat_map]. now destruct (employee_code e). Qed.

Lemma codes_filter (keep : employee -> bool) (l : list employee) :
  NoDup (codes l) -> NoDup (codes (filter keep l)).
Proof.
  induction l as [|e l IH]; [auto|].
  cbn [filter]. rewrite codes_cons. intros N.
  assert (NoDup (codes l)) as Nl
      by (destruct (employee_code e); [now apply NoDup_cons_iff in N|exact N]).
  destruct (keep e); [|auto].
  rewrite codes_cons. destruct (employee_code e) as [c|]; [|auto].
  apply NoDup_cons_iff in N as [Hc _]. apply NoDup_cons; [|auto].
  intros (e' & [Hin _]%filter_In & E)%In_codes.
  apply Hc, In_codes. eauto.
Qed.

Lemma codes_update_is_active (flag id : Z) (l : list employee) :
  codes (map (fun e => if emp_id e =? id
                       then mkemployee (emp_id e) (full_name e)
                                       (employee_code e) flag
                                       (emp_created_at e)
                       else e) l)
  = codes l.
Proof.
  unfold codes. induction l as [|e l IH]; [reflexivity|].
  cbn [map flat_map]. rewrite IH. now destruct (emp_id e =? id).
Qed.

Lemma strip_nonempty_or_none (s : str) : or_none s <> Some [].
Proof. unfold or_none. destruct s; cbn [is_empty]; congruence. Qed.

Lemma btn_add_emp_keys_ok (name code now : str) (d : db) :
  keys_ok d -> keys_ok (run (btn_add_emp name code now) d).
Proof.
  intros K. pose proof K as (N1 & N2 & N3 & He & Ho).
  unfold run, btn_add_emp.
  destruct (is_empty (strip name)) eqn:En; [exact K|].
  unfold execute, insert_employee.
  destruct (match or_none (strip code) with
            | Some c => code_in_use c d
            | None => false
            end) eqn:U; [exact K|].
  cbn [snd]. unfold keys_ok. cbn [employees attendance_overrides seq_employees
                                   seq_overrides].
  pose proof (next_rowid_above (seq_employees d) (map emp_id (employees d)))
    as [A1 A2].
  repeat split.
  - rewrite map_app. cbn [map emp_id]. apply NoDup_snoc; [exact N1|].
    intros Hin. apply A2 in Hin. lia.
  - exact N2.
  - rewrite codes_app. unfold codes at 2. cbn [flat_map employee_code].
    rewrite app_nil_r.
    destruct (or_none (strip code)) as [c|]; [|now rewrite app_nil_r].
    apply NoDup_snoc; [exact N3|].
    intros Hin. apply In_codes, code_in_use_spec in Hin. congruence.
  - apply in_app_iff in H as [H|[<-|[]]]; [|cbn [emp_id]; lia].
    destruct (He e H) as (B & _). lia.
  - apply in_app_iff in H as [H|[<-|[]]]; [now apply He|now right].
  - apply in_app_iff in H as [H|[<-|[]]]; [now apply He|].
    cbn [full_name]. destruct (strip name); [discriminate|congruence].
  - apply in_app_iff in H as [H|[<-|[]]]; [now apply He|].
    apply strip_nonempty_or_none.
  - exact Ho.
Qed.

Lemma btn_save_status_keys_ok (st : state_option) (id : Z) (d : db) :
  keys_ok d -> keys_ok (run (btn_save_status st id) d).
Proof.
  intros (N1 & N2 & N3 & He & Ho).
  unfold btn_save_status. rewrite run_execute.
  unfold keys_ok. cbn [update_is_active employees attendance_overrides
                       seq_employees seq_overrides].
  split; [|split; [exact N2|split; [|split; [|exact Ho]]]].
  - rewrite map_map. erewrite map_ext; [exact N1|].
    intros e. now destruct (emp_id e =? id).
  - now rewrite codes_update_is_active.
  - intros e (e0 & <- & H0)%in_map_iff. destruct (He e0 H0) as (B & F & Nm & C).
    destruct (emp_id e0 =? id); cbn [emp_id is_active full_name employee_code];
      [|auto].
    repeat split; auto. destruct st; auto.
Qed.

Lemma upsert_override_keys_ok (eid : Z) (wd notes now : str) (d d' : db) :
  keys_ok d -> upsert_override eid wd notes now d = Ok d' -> keys_ok d'.
Proof.
  intros (N1 & N2 & N3 & He & Ho). unfold upsert_override.
  pose proof (next_rowid_above (seq_overrides d)
                (map ovr_id (attendance_overrides d))) as [A1 A2].
  destruct (existsb (same_pair eid wd) (attendance_overrides d)).
  - intros [= <-]. unfold keys_ok.
    cbn [employees attendance_overrides seq_employees seq_overrides].
    split; [exact N1|]. split; [|split; [exact N3|split; [exact He|]]].
    + rewrite map_map. erewrite map_ext; [exact N2|].
      intros r. unfold set_notes. now destruct (same_pair eid wd r).
    + intros r (r0 & <- & H0)%in_map_iff. specialize (Ho r0 H0).
      unfold set_notes. destruct (same_pair eid wd r0); cbn [ovr_id]; lia.
  - destruct (existsb (fun e => emp_id e =? eid) (employees d));
      [|discriminate].
    intros [= <-]. unfold keys_ok.
    cbn [employees attendance_overrides seq_employees seq_overrides].
    split; [exact N1|]. split; [|split; [exact N3|split; [exact He|]]].
    + rewrite map_app. cbn [map ovr_id]. apply NoDup_snoc; [exact N2|].
      intros Hin. apply A2 in Hin. lia.
    + intros r [H|[<-|[]]]%in_app_iff; [|cbn [ovr_id]; lia].
      specialize (Ho r H). lia.
Qed.

Lemma perform_keys_ok (a : action) (d : db) : keys_ok d -> keys_ok (perform a d).
Proof.
  destruct a as [name code now|st id|ids wd notes now|ids wd|id];
    cbn [perform]; intros K.
  - now apply btn_add_emp_keys_ok.
  - now apply btn_save_status_keys_ok.
  - unfold set_libur. apply for_each_preserves; [|exact K].
    intros eid d0 _ K0. rewrite run_execute.
    destruct (upsert_override eid (isoformat wd) notes now d0) as [d1|] eqn:E;
      [|exact K0].
    eapply upsert_override_keys_ok; eauto.
  - unfold clear_override. apply for_each_preserves; [|exact K].
    intros eid d0 _ (N1 & N2 & N3 & He & Ho). rewrite run_execute.
    unfold keys_ok. cbn [delete_override employees attendance_overrides
                         seq_employees seq_overrides].
    split; [exact N1|]. split; [now apply NoDup_map_kept|].
    split; [exact N3|]. split; [exact He|].
    intros r [Hr _]%filter_In. auto.
  - destruct K as (N1 & N2 & N3 & He & Ho). rewrite run_execute.
    unfold keys_ok. cbn [delete_employee employees attendance_overrides
                         seq_employees seq_overrides].
    split; [now apply NoDup_map_kept|]. split; [now apply NoDup_map_kept|].
    split; [now apply codes_filter|].
    split; [intros e [H _]%filter_In; auto|intros r [H _]%filter_In; auto].
Qed.

Lemma reachable_keys (d : db) : reachable d -> keys_ok d.
Proof.
  induction 1 as [|d a _ IH _]; [|now apply perform_keys_ok].
  unfold keys_ok. cbn [init_db employees attendance_overrides map codes
                       flat_map].
  split; [constructor|]. split; [constructor|]. split; [constructor|].
  split; intros ? [].
Qed.

(** X2: in every reachable state the employee identifiers are pairwise
    distinct, so are the override identifiers and the non-NULL employee
    codes; no identifier exceeds its counter; every flag is 0 or 1, so
    every row of the employee list gets a status label; no stored name is
    empty and no stored code is the empty text. *)
Theorem reachable_keys_ok (d : db) :
  reachable d ->
  keys_ok d
  /\ forall e, In e (get_all_employees d) -> status_label (is_active e) <> None.
Proof.
  intros R. pose proof (reachable_keys d R) as K.
  split; [exact K|].
  intros e He. unfold get_all_employees in He.
  apply (Permutation_in _ (sort_by_perm full_name _)) in He.
  destruct K as (_ & _ & _ & K & _). destruct (K e He) as (_ & [F|F] & _);
    rewrite F; discriminate.
Qed.

Lemma reachable_keys_ok_witness :
  keys_ok db_example
  /\ Forall (fun e => status_label (is_active e) <> None)
            (get_all_employees db_example).
Proof.
  destruct (reachable_keys_ok db_example) as [K L].
  - unfold db_example. reach.
  - split; [exact K|]. now apply Forall_forall.
Defined.

(** X1: the employee list holds every row of the table exactly once, in
    ascending order of full name, and the list of active employees is the
    employee list restricted to the rows with is_active = 1, in the same
    order. *)
Theorem get_all_employees_listing (d : db) :
  Permutation (get_all_employees d) (employees d)
  /\ sorted_by full_name (get_all_employees d)
  /\ get_active_employees d
     = map select_active
           (filter (fun e => is_active e =? 1) (get_all_employees d)).
Proof.
  unfold get_all_employees, get_active_employees.
  split; [apply sort_by_perm|]. split; [apply sort_by_sorted|].
  now rewrite filter_sort_by.
Qed.

(** ** Sequences of override writes *)

Lemma for_each_app {A : Type} (f : A -> M unit) (l1 l2 : list A) (d : db) :
  for_each f (l1 ++ l2) d
  = match for_each f l1 d with
    | (Ok _, d') => for_each f l2 d'
    | (Raise e, d') => (Raise e, d')
    end.
Proof.
  revert d. induction l1 as [|x l1 IH]; intros d; [reflexivity|].
  cbn [app]. rewrite !for_each_cons.
  destruct (f x d) as [[[]|e] d1]; [apply IH|reflexivity].
Qed.

Lemma upsert_override_employees (eid : Z) (wd n now : str) (d d' : db) :
  upsert_override eid wd n now d = Ok d' -> employees d' = employees d.
Proof.
  unfold upsert_override.
  repeat match goal with |- context [if ?b then _ else _] => destruct b end;
    intros [= <-]; reflexivity.
Qed.

(** An upsert for an existing employee goes through. *)
Lemma upsert_override_known (eid : Z) (wd n now : str) (d : db) :
  In eid (map emp_id (employees d)) ->
  exists d', upsert_override eid wd n now d = Ok d'.
Proof.
  intros H%existsb_emp_id. unfold upsert_override. rewrite H.
  destruct (existsb _ (attendance_overrides d)); eauto.
Qed.

Lemma set_libur_known (ids : list Z) (wd : date) (n now : str) (d : db) :
  (forall i, In i ids -> In i (map emp_id (employees d))) ->
  fst (set_libur ids wd n now d) = Ok tt.
Proof.
  unfold set_libur. revert d.
  induction ids as [|i ids IH]; intros d H; [reflexivity|].
  rewrite for_each_cons.
  destruct (upsert_override_known i (isoformat wd) n now d) as [d1 E];
    [apply H; now left|].
  rewrite (execute_ok _ _ _ E). apply IH.
  intros j Hj. rewrite (upsert_override_employees _ _ _ _ _ _ E).
  apply H. now right.
Qed.

(** X3: when the list holds an identifier, a value sqlite3 can bind, that
    is not in the employee table, set_libur raises the foreign-key error at
    that identifier: the upserts for the identifiers before it are kept,
    those after it are not attempted. *)
Theorem set_libur_unknown_employee (pre post : list Z) (bad : Z) (wd : date)
  (n now : str) (d : db) :
  references_ok d ->
  Forall sqlite_integer pre -> sqlite_integer bad ->
  (forall i, In i pre -> In i (map emp_id (employees d))) ->
  ~ In bad (map emp_id (employees d)) ->
  set_libur (pre ++ bad :: post) wd n now d
  = (Raise (IntegrityError "FOREIGN KEY constraint failed"),
     run (set_libur pre wd n now) d).
Proof.
  intros R _ _ Hpre Hbad.
  pose proof (set_libur_known pre wd n now d Hpre) as Ok1.
  assert (employees (run (set_libur pre wd n now) d) = employees d
          /\ forall r, In r (attendance_overrides (run (set_libur pre wd n now) d))
                       -> employee_id r <> bad) as [E1 N1].
  { unfold set_libur.
    apply (for_each_preserves
             (fun d' => employees d' = employees d
                        /\ forall r, In r (attendance_overrides d')
                                     -> employee_id r <> bad)).
    - intros i d0 Hi [E0 N0]. rewrite run_execute.
      destruct (upsert_override i (isoformat wd) n now d0) as [d1|] eqn:U;
        [|now split].
      split; [rewrite <- E0; eapply upsert_override_employees; eauto|].
      revert U. unfold upsert_override.
      destruct (existsb (same_pair i _) _).
      + intros [= <-] r (r0 & <- & H0)%in_map_iff.
        cbn [attendance_overrides] in *.
        unfold set_notes. destruct (same_pair _ _ r0); cbn [employee_id]; auto.
      + destruct (existsb _ (employees d0)); [|discriminate].
        intros [= <-] r [H|[<-|[]]]%in_app_iff; [auto|].
        cbn [employee_id]. intros ->. apply Hbad, Hpre, Hi.
    - split; [reflexivity|]. intros r Hr E. apply Hbad. rewrite <- E.
      now apply R. }
  unfold set_libur in *. rewrite for_each_app. unfold run in *.
  destruct (for_each _ pre d) as [[[]|e] d1]; cbn [fst snd] in *;
    [|discriminate].
  rewrite for_each_cons. unfold execute, upsert_override.
  replace (existsb (same_pair bad (isoformat wd)) (attendance_overrides d1))
    with false.
  - replace (existsb (fun e => emp_id e =? bad) (employees d1)) with false;
      [reflexivity|].
    symmetry. apply not_true_iff_false. rewrite existsb_emp_id, E1. exact Hbad.
  - symmetry. apply not_true_iff_false.
    intros (r & Hr & S)%existsb_exists.
    apply same_pair_spec in S. injection S as S _. now apply (N1 r).
Qed.

Lemma set_libur_unknown_employee_witness :
  set_libur [2; 7; 1] jan31 (py "libur") t0 db_example
  = (Raise (IntegrityError "FOREIGN KEY constraint failed"),
     run (set_libur [2] jan31 (py "libur") t0) db_example).
Proof.
  apply (set_libur_unknown_employee [2] [1] 7 jan31 (py "libur") t0 db_example).
  - apply reachable_consistent. unfold db_example. reach.
  - constructor; [unfold sqlite_integer; lia|constructor].
  - unfold sqlite_integer. lia.
  - vm_compute. intuition.
  - vm_compute. intuition discriminate.
Defined.

Lemma filter_twice {A : Type} (p : A -> bool) (l : list A) :
  filter p (filter p l) = filter p l.
Proof.
  rewrite filter_filter. apply filter_ext. intros x. now destruct (p x).
Qed.

(** What [clear_override] leaves behind, for any list of employees. *)
Lemma clear_override_run (ids : list Z) (wd : date) (d : db) :
  clear_override ids wd d
  = (Ok tt,
     mkdb (employees d)
          (filter (fun r => negb (cleared ids (isoformat wd) r))
                  (attendance_overrides d))
          (seq_employees d) (seq_overrides d)).
Proof.
  unfold clear_override. revert d.
  induction ids as [|i ids IH]; intros d.
  - cbn [for_each]. unfold ret, cleared. cbn [existsb andb negb].
    f_equal. rewrite <- (db_eta d) at 1. f_equal.
    induction (attendance_overrides d) as [|r l IHl]; [reflexivity|].
    cbn [filter]. now rewrite <- IHl.
  - rewrite for_each_cons. unfold execute at 1. cbn [delete_override].
    rewrite IH. cbn [employees attendance_overrides seq_employees
                     seq_overrides].
    do 2 f_equal. rewrite filter_filter. apply filter_ext. intros r.
    unfold cleared, same_pair. cbn [existsb].
    destruct (employee_id r =? i), (existsb _ ids),
      (str_eqb (work_date r) (isoformat wd)); reflexivity.
Qed.

(** X4: for any list of identifiers that sqlite3 can bind, clear_override
    raises nothing, deletes exactly the override rows of the listed
    employees on the date, and leaves the employee table and both counters
    as they were; running it a second time changes nothing. *)
Theorem clear_override_all (ids : list Z) (wd : date) (d : db) :
  Forall sqlite_integer ids ->
  clear_override ids wd d
  = (Ok tt,
     mkdb (employees d)
          (filter (fun r => negb (cleared ids (isoformat wd) r))
                  (attendance_overrides d))
          (seq_employees d) (seq_overrides d))
  /\ (forall r, In r (attendance_overrides (run (clear_override ids wd) d))
                <-> In r (attendance_overrides d)
                    /\ ~ (In (employee_id r) ids
                          /\ work_date r = isoformat wd))
  /\ run (clear_override ids wd) (run (clear_override ids wd) d)
     = run (clear_override ids wd) d.
Proof.
  intros _. split; [apply clear_override_run|]. split.
  - intros r. unfold run. rewrite clear_override_run.
    cbn [snd attendance_overrides].
    rewrite filter_In, negb_true_iff. unfold cleared.
    rewrite <- not_true_iff_false, andb_true_iff, str_eqb_eq, existsb_exists.
    split; intros [H N]; (split; [exact H|]); intros [H1 H2]; apply N;
      (split; [|exact H2]).
    + exists (employee_id r). split; [exact H1|apply Z.eqb_refl].
    + destruct H1 as (i & Hi & <-%Z.eqb_eq). exact Hi.
  - unfold run. rewrite !clear_override_run.
    cbn [snd employees attendance_overrides seq_employees seq_overrides].
    now rewrite filter_twice.
Qed.

Lemma clear_override_all_witness :
  fst (clear_override [1; 9] jan1 db_example) = Ok tt
  /\ map ovr_id (attendance_overrides
                   (run (clear_override [1; 9] jan1) db_example))
     = [2; 3; 4]
  /\ run (clear_override [1; 9] jan1) (run (clear_override [1; 9] jan1) db_example)
     = run (clear_override [1; 9] jan1) db_example.
Proof.
  destruct (clear_override_all [1; 9] jan1 db_example) as (E & _ & I).
  - repeat constructor; unfold sqlite_integer; lia.
  - split; [now rewrite E|]. split; [|exact I].
    unfold run. rewrite E. reflexivity.
Defined.

Lemma cleared_set_notes (ids : list Z) (eid : Z) (wd n : str) (r : override) :
  cleared ids wd (set_notes eid wd n r) = cleared ids wd r.
Proof. unfold set_notes. now destruct (same_pair eid wd r). Qed.

(** An upsert for a listed employee changes cleared rows only. *)
Lemma upsert_override_kept (ids : list Z) (eid : Z) (wd n now : str) (d : db) :
  In eid ids ->
  filter (fun r => negb (cleared ids wd r))
         (attendance_overrides (run (execute (upsert_override eid wd n now)) d))
  = filter (fun r => negb (cleared ids wd r)) (attendance_overrides d).
Proof.
  intros Hin. rewrite run_execute. unfold upsert_override.
  assert (forall r, same_pair eid wd r = true -> cleared ids wd r = true) as C.
  { intros r [E1 E2]%andb_true_iff. unfold cleared. rewrite E2, andb_true_r.
    apply existsb_exists. exists eid. auto. }
  destruct (existsb (same_pair eid wd) (attendance_overrides d)).
  - cbn [attendance_overrides].
    induction (attendance_overrides d) as [|r l IH]; [reflexivity|].
    cbn [map filter]. rewrite cleared_set_notes, IH.
    destruct (cleared ids wd r) eqn:Cr; cbn [negb]; [reflexivity|].
    f_equal. unfold set_notes. destruct (same_pair eid wd r) eqn:S; [|reflexivity].
    apply C in S. congruence.
  - destruct (existsb _ (employees d)); [|reflexivity].
    cbn [attendance_overrides]. rewrite filter_app. cbn [filter].
    rewrite C; [apply app_nil_r|].
    unfold same_pair. cbn [employee_id work_date].
    now rewrite Z.eqb_refl, str_eqb_refl.
Qed.

(** X5: when set_libur ran to its end, clearing the same employees on
    the same date raises nothing and gives the override table that
    clearing alone gives, whatever rows existed before; the employee table
    is the one before both calls. *)
Theorem clear_override_after_set_libur (ids : list Z) (wd : date)
  (n now : str) (d : db) :
  Forall sqlite_integer ids ->
  fst (set_libur ids wd n now d) = Ok tt ->
  fst (clear_override ids wd (run (set_libur ids wd n now) d)) = Ok tt
  /\ attendance_overrides
       (run (clear_override ids wd) (run (set_libur ids wd n now) d))
     = attendance_overrides (run (clear_override ids wd) d)
  /\ employees (run (clear_override ids wd) (run (set_libur ids wd n now) d))
     = employees d.
Proof.
  intros _ _. rewrite clear_override_run. split; [reflexivity|].
  unfold run at 1 3 4. rewrite !clear_override_run.
  cbn [snd attendance_overrides employees]. split.
  - unfold set_libur.
    apply (for_each_preserves
             (fun d' => filter (fun r => negb (cleared ids (isoformat wd) r))
                               (attendance_overrides d')
                        = filter (fun r => negb (cleared ids (isoformat wd) r))
                                 (attendance_overrides d))); [|reflexivity].
    intros i d0 Hi E0. rewrite <- E0. now apply upsert_override_kept.
  - apply set_libur_frame.
Qed.

Lemma clear_override_after_set_libur_witness :
  attendance_overrides
    (run (clear_override [1; 2] jan31)
         (run (set_libur [1; 2] jan31 (py "libur") t0) db_example))
  = attendance_overrides db_example.
Proof.
  destruct (clear_override_after_set_libur [1; 2] jan31 (py "libur") t0
              db_example) as (_ & E & _).
  - repeat constructor; unfold sqlite_integer; lia.
  - reflexivity.
  - rewrite E. reflexivity.
Defined.

(** ** Bounds of the report *)

Lemma toordinal_inj (a b : date) :
  valid_date a = true -> valid_date b = true ->
  toordinal a = toordinal b -> a = b.
Proof.
  intros Va Vb E.
  pose proof (toordinal_compare a b Va Vb) as C.
  rewrite E, Z.compare_refl in C. unfold date_compare in C.
  destruct a as [y m dd], b as [y' m' dd']. cbn [year month day] in C.
  destruct (Z.compare_spec y y') as [->| |]; try discriminate.
  destruct (Z.compare_spec m m') as [->| |]; try discriminate.
  symmetry in C. apply Z.compare_eq in C. now subst.
Qed.

Lemma NoDup_map_on {A B : Type} (f : A -> B) (l : list A) :
  (forall x y, In x l -> In y l -> f x = f y -> x = y) ->
  NoDup l -> NoDup (map f l).
Proof.
  intros Inj N. induction N as [|x l Hx N IH]; cbn [map]; constructor.
  - intros (y & E & Hy)%in_map_iff.
    apply Hx. replace x with y; [exact Hy|].
    apply Inj; [now right|now left|exact E].
  - apply IH. intros y z Hy Hz. apply Inj; now right.
Qed.

Lemma NoDup_map_eq {A B : Type} (f : A -> B) (l : list A) (x y : A) :
  NoDup (map f l) -> In x l -> In y l -> f x = f y -> x = y.
Proof.
  induction l as [|z l IH]; cbn [map]; [intros _ []|].
  intros [Hz N]%NoDup_cons_iff [->|Hx] [->|Hy] E; auto.
  - exfalso. apply Hz. rewrite E. now apply in_map.
  - exfalso. apply Hz. rewrite <- E. now apply in_map.
Qed.

(** Distinct integers of a range are no more than the range holds. *)
Lemma NoDup_range_length (lo hi : Z) (l : list Z) :
  lo <= hi + 1 -> NoDup l -> (forall x, In x l -> lo <= x <= hi) ->
  Z.of_nat (List.length l) <= hi - lo + 1.
Proof.
  intros Hr N B.
  assert (NoDup (map (fun x => Z.to_nat (x - lo)) l)) as N'.
  { apply NoDup_map_on; [|exact N].
    intros x y Hx Hy E. apply B in Hx, Hy. lia. }
  assert (incl (map (fun x => Z.to_nat (x - lo)) l)
               (seq 0 (Z.to_nat (hi - lo + 1)))) as I.
  { intros k (x & <- & Hx)%in_map_iff. apply B in Hx.
    apply in_seq. lia. }
  pose proof (NoDup_incl_length N' I) as L.
  rewrite length_map, length_seq in L. lia.
Qed.

Lemma in_range_ordinal (s e : date) (wd : str) :
  in_range s e wd = true ->
  toordinal s <= ordinal_of_text wd <= toordinal e.
Proof.
  unfold in_range, ordinal_of_text.
  destruct (fromisoformat wd); [|discriminate].
  rewrite andb_true_iff, !Z.leb_le. tauto.
Qed.

(** In a consistent database an employee has no more days off in a range
    than the range has days. *)
Lemma spec_absent_days_bound (s e : date) (d : db) (eid : Z) :
  consistent d -> toordinal s <= toordinal e + 1 ->
  0 <= spec_absent_days s e d eid <= toordinal e - toordinal s + 1.
Proof.
  intros (U & _ & I) Hse. unfold spec_absent_days. split; [lia|].
  set (L := filter _ (attendance_overrides d)).
  rewrite <- (length_map (fun r => ordinal_of_text (work_date r)) L).
  apply NoDup_range_length; [exact Hse| |].
  - apply NoDup_map_on.
    + intros x y [Hx Px]%filter_In [Hy Py]%filter_In E.
      apply andb_true_iff in Px as [Ex _], Py as [Ey _].
      apply Z.eqb_eq in Ex, Ey.
      destruct (I x Hx) as (dx & Vx & Wx), (I y Hy) as (dy & Vy & Wy).
      unfold ordinal_of_text in E.
      rewrite Wx, Wy, !fromisoformat_isoformat in E by assumption.
      apply toordinal_inj in E; [|assumption..]. subst dy.
      apply (NoDup_map_eq pair_of (attendance_overrides d)); auto.
      unfold pair_of. congruence.
    + apply NoDup_filter. eapply NoDup_map_inv. exact U.
  - intros k (r & <- & [_ Pr]%filter_In)%in_map_iff.
    apply andb_true_iff in Pr as [_ Pr]. now apply in_range_ordinal.
Qed.

(** X6: in a reachable state and for dates start <= end, every row of the
    report has 0 <= libur_days <= total_days and 0 <= masuk_days <=
    total_days: an employee is never absent on more days than the range
    has, and never present on a negative number of days. *)
Theorem build_report_days_in_bounds (s e : date) (d : db) (row : report_row) :
  reachable d -> valid_date s = true -> valid_date e = true ->
  toordinal s <= toordinal e ->
  In row (build_report s e d) ->
  0 <= libur_days row <= total_days row
  /\ 0 <= masuk_days row <= total_days row.
Proof.
  intros R Vs Ve Hse Hrow. apply reachable_consistent in R.
  pose proof R as (_ & _ & I).
  rewrite (build_report_spec s e d I Vs Ve) in Hrow.
  apply in_map_iff in Hrow as (a & <- & _).
  pose proof (spec_absent_days_bound s e d (a_id a) R) as B.
  unfold spec_row, spec_total_days.
  cbn [libur_days masuk_days total_days]. lia.
Qed.

Lemma build_report_days_in_bounds_witness :
  Forall (fun row => 0 <= libur_days row <= total_days row
                     /\ 0 <= masuk_days row <= total_days row)
         (build_report jan1 jan31 db_example).
Proof.
  apply Forall_forall. intros row Hrow.
  apply (build_report_days_in_bounds jan1 jan31 db_example row).
  - unfold db_example. reach.
  - reflexivity.
  - reflexivity.
  - vm_compute. discriminate.
  - exact Hrow.
Defined.

(** X7: build_report does not check the order of its dates: when the end
    date lies before the start date the range query selects nothing, so
    every row has libur_days = 0 and masuk_days = total_days, a number
    that is zero or negative. *)
Theorem build_report_reversed_range (s e : date) (d : db) (row : report_row) :
  valid_date s = true -> valid_date e = true ->
  toordinal e < toordinal s ->
  In row (build_report s e d) ->
  libur_days row = 0
  /\ masuk_days row = total_days row
  /\ total_days row = toordinal e - toordinal s + 1
  /\ total_days row <= 0.
Proof.
  intros Vs Ve Hes Hrow. rewrite build_report_rows in Hrow.
  apply in_map_iff in Hrow as (a & <- & _).
  unfold row_of, days_between. cbn [libur_days masuk_days total_days].
  assert (count_between (isoformat s) (isoformat e) d (a_id a) = 0) as ->;
    [|lia].
  unfold count_between.
  replace (filter (between (isoformat s) (isoformat e))
                  (attendance_overrides d)) with (@nil override);
    [reflexivity|].
  symmetry. induction (attendance_overrides d) as [|r l IH]; [reflexivity|].
  cbn [filter]. destruct (between _ _ r) eqn:B; [|exact IH].
  exfalso. apply andb_true_iff in B as [B1 B2].
  pose proof (str_leb_trans _ _ _ B1 B2) as B.
  rewrite isoformat_leb in B by assumption. apply Z.leb_le in B. lia.
Qed.

Lemma build_report_reversed_range_witness :
  Forall (fun row => libur_days row = 0 /\ masuk_days row = -30
                     /\ total_days row = -30)
         (build_report (mkdate 2024 2 1) jan1 db_example).
Proof.
  apply Forall_forall. intros row Hrow.
  destruct (build_report_reversed_range (mkdate 2024 2 1) jan1 db_example row)
    as (H1 & H2 & H3 & _).
  - reflexivity.
  - reflexivity.
  - vm_compute. reflexivity.
  - exact Hrow.
  - rewrite H2, H3. split; [exact H1|]. split; reflexivity.
Defined.

(** ** How the writes change the report *)

Lemma count_between_filter (lo hi : str) (d : db) (k : Z) :
  count_between lo hi d k
  = Z.of_nat (List.length
                (filter (fun r => (employee_id r =? k) && between lo hi r)
                        (attendance_overrides d))).
Proof.
  unfold count_between. now rewrite length_filter_map, filter_filter.
Qed.

Lemma get_active_employees_ext (d d' : db) :
  employees d' = employees d ->
  get_active_employees d' = get_active_employees d.
Proof. unfold get_active_employees. now intros ->. Qed.

Lemma existsb_filter {A : Type} (p : A -> bool) (l : list A) :
  existsb p l = negb (is_empty (filter p l)).
Proof.
  induction l as [|x l IH]; [reflexivity|].
  cbn [existsb filter]. destruct (p x); [reflexivity|exact IH].
Qed.

Lemma between_isoformat (s e wd : date) (r : override) :
  valid_date s = true -> valid_date e = true -> valid_date wd = true ->
  work_date r = isoformat wd ->
  between (isoformat s) (isoformat e) r = date_in_range s e wd.
Proof.
  intros Vs Ve Vw E. unfold between, date_in_range.
  now rewrite E, !isoformat_leb.
Qed.

Lemma length_filter_set_notes (p : override -> bool) (eid : Z) (wd n : str)
  (l : list override) :
  (forall r, p (set_notes eid wd n r) = p r) ->
  List.length (filter p (map (set_notes eid wd n) l)) = List.length (filter p l).
Proof.
  intros Hp. induction l as [|r l IH]; [reflexivity|].
  cbn [map filter]. rewrite Hp. destruct (p r); cbn [List.length]; now rewrite IH.
Qed.

(** One upsert: the count of one employee grows by one when the pair is
    new and its date lies in the range; nothing else changes. *)
Lemma upsert_override_count (s e wd : date) (i : Z) (n now : str) (d d1 : db) :
  valid_date s = true -> valid_date e = true -> valid_date wd = true ->
  upsert_override i (isoformat wd) n now d = Ok d1 ->
  employees d1 = employees d
  /\ (forall k,
        count_between (isoformat s) (isoformat e) d1 k
        = count_between (isoformat s) (isoformat e) d k
          + (if (k =? i) && no_row i wd d && date_in_range s e wd
             then 1 else 0))
  /\ (forall k, no_row k wd d1 = no_row k wd d && negb (k =? i)).
Proof.
  intros Vs Ve Vw. unfold upsert_override, no_row, rows_of_pair.
  rewrite existsb_filter.
  destruct (filter (same_pair i (isoformat wd)) (attendance_overrides d))
    as [|r0 l0] eqn:F; cbn [is_empty negb].
  - destruct (existsb _ (employees d)); [|discriminate].
    intros [= <-]. cbn [employees attendance_overrides].
    split; [reflexivity|]. split; intros k.
    + rewrite !count_between_filter. cbn [attendance_overrides].
      rewrite filter_app, length_app, Nat2Z.inj_add. f_equal.
      cbn [filter employee_id]. rewrite (Z.eqb_sym i k), andb_true_r.
      rewrite (between_isoformat s e wd) by (assumption || reflexivity).
      now destruct ((k =? i) && date_in_range s e wd).
    + rewrite filter_app. cbn [filter]. unfold same_pair at 2.
      cbn [employee_id work_date]. rewrite str_eqb_refl, andb_true_r.
      rewrite (Z.eqb_sym i k).
      destruct (filter (same_pair k (isoformat wd)) (attendance_overrides d))
        eqn:Fk.
      * destruct (k =? i); reflexivity.
      * cbn [app is_empty]. reflexivity.
  - intros [= <-]. cbn [employees attendance_overrides].
    split; [reflexivity|]. split; intros k.
    + rewrite andb_false_r. cbn [andb]. rewrite Z.add_0_r.
      rewrite !count_between_filter. cbn [attendance_overrides].
      f_equal. apply length_filter_set_notes.
      intros r. unfold set_notes, between.
      now destruct (same_pair i (isoformat wd) r).
    + rewrite filter_same_pair_set_notes.
      destruct (k =? i) eqn:E.
      * apply Z.eqb_eq in E. subst k. rewrite F. reflexivity.
      * rewrite andb_true_r.
        now destruct (filter (same_pair k (isoformat wd))
                             (attendance_overrides d)).
Qed.

Lemma set_libur_count (s e wd : date) (ids : list Z) (n now : str) (d : db) :
  valid_date s = true -> valid_date e = true -> valid_date wd = true ->
  (forall i, In i ids -> In i (map emp_id (employees d))) ->
  forall k,
    count_between (isoformat s) (isoformat e)
                  (run (set_libur ids wd n now) d) k
    = count_between (isoformat s) (isoformat e) d k
      + (if listed ids k && no_row k wd d && date_in_range s e wd
         then 1 else 0).
Proof.
  intros Vs Ve Vw. unfold set_libur, run. revert d.
  induction ids as [|i ids IH]; intros d H k.
  - cbn [for_each ret snd listed existsb andb]. lia.
  - rewrite for_each_cons.
    destruct (upsert_override_known i (isoformat wd) n now d) as [d1 E];
      [apply H; now left|].
    rewrite (execute_ok _ _ _ E).
    destruct (upsert_override_count s e wd i n now d d1 Vs Ve Vw E)
      as (Ee & Ec & En).
    rewrite IH by (intros j Hj; rewrite Ee; apply H; now right).
    rewrite Ec, En. unfold listed. cbn [existsb].
    destruct (k =? i) eqn:Ek.
    + apply Z.eqb_eq in Ek. subst k. cbn [orb andb negb].
      rewrite !andb_false_r, andb_false_l. lia.
    + cbn [orb andb negb]. rewrite andb_true_r. lia.
Qed.

(** X8: after set_libur for existing employees the report is the report
    before with one more day off, and one day less of presence, exactly
    for the listed active employees that had no override on that date when
    the date lies in the report's range; every other row is as before. *)
Theorem set_libur_report (s e wd : date) (ids : list Z) (n now : str) (d : db) :
  valid_date s = true -> valid_date e = true -> valid_date wd = true ->
  (forall i, In i ids -> In i (map emp_id (employees d))) ->
  build_report s e (run (set_libur ids wd n now) d)
  = map (fun a =>
           if listed ids (a_id a) && no_row (a_id a) wd d
              && date_in_range s e wd
           then shift_days 1 (row_of s e d a)
           else row_of s e d a)
        (get_active_employees d).
Proof.
  intros Vs Ve Vw H. rewrite build_report_rows.
  rewrite (get_active_employees_ext d) by apply set_libur_frame.
  apply map_ext. intros a. unfold row_of. cbv zeta.
  rewrite (set_libur_count s e wd ids n now d Vs Ve Vw H).
  destruct (listed ids (a_id a) && no_row (a_id a) wd d && date_in_range s e wd);
    unfold shift_days; cbn [r_full_name r_employee_code total_days masuk_days
                            libur_days]; f_equal; lia.
Qed.

Lemma set_libur_report_witness :
  build_report jan1 jan31
    (run (set_libur [1; 2] (mkdate 2024 1 15) (py "libur") t0) db_example)
  = [mkreport (py "Andi Pratama") (Some (py "EMP-001")) 31 29 2;
     mkreport (py "Budi Santoso") (Some (py "EMP-002")) 31 29 2].
Proof.
  rewrite (set_libur_report jan1 jan31 (mkdate 2024 1 15) [1; 2] (py "libur")
             t0 db_example).
  - reflexivity.
  - reflexivity.
  - reflexivity.
  - reflexivity.
  - vm_compute. intuition.
Defined.







(** ** The day-off tab *)

Lemma active_ids_are_employees (d : db) (i : Z) :
  In i (map a_id (get_active_employees d)) -> In i (map emp_id (employees d)).
Proof.
  intros (a & <- & (emp & H1 & _ & <-)%In_get_active_employees)%in_map_iff.
  exact (in_map emp_id _ _ H1).
Qed.

Lemma target_ids_are_employees (mode : target_mode) (d : db) (i : Z) :
  selectable mode d ->
  In i (target_ids mode (get_active_employees d)) ->
  In i (map emp_id (employees d)).
Proof.
  destruct mode as [emp|]; cbn [selectable target_ids].
  - intros S [<-|[]]. now apply active_ids_are_employees.
  - intros _. apply active_ids_are_employees.
Qed.

(** X10: in a reachable state the "Tandai LIBUR" button never raises: its
    targets come from the list of active employees, so the foreign key
    holds.  Afterwards every targeted employee has exactly one override row
    on the date, with the stripped note, and the employee table is as
    before. *)
Theorem btn_set_libur_marks_targets (mode : target_mode) (wd : date)
  (notes now : str) (d : db) :
  reachable d -> valid_date wd = true -> selectable mode d ->
  fst (btn_set_libur mode wd notes now d) = Ok tt
  /\ employees (run (btn_set_libur mode wd notes now) d) = employees d
  /\ forall i, In i (target_ids mode (get_active_employees d)) ->
               one_row_with_note i wd (strip notes)
                 (run (btn_set_libur mode wd notes now) d).
Proof.
  intros R V S. apply reachable_consistent in R.
  unfold run, btn_set_libur. cbv zeta.
  destruct (get_active_employees d) as [|a l] eqn:E; cbn [is_empty].
  - split; [reflexivity|]. split; [reflexivity|].
    destruct mode as [emp|]; cbn [selectable target_ids map] in *.
    + rewrite E in S. destruct S.
    + intros i [].
  - rewrite <- E.
    apply (set_libur_sets_note _ wd (strip notes) now d V R).
    intros i. now apply target_ids_are_employees.
Qed.

Lemma btn_set_libur_marks_targets_witness :
  Forall (fun i => one_row_with_note i jan31 (py "cuti")
                     (run (btn_set_libur SemuaKaryawanAktif jan31
                                         (py " cuti ") t0) db_example))
         [1; 2].
Proof.
  destruct (btn_set_libur_marks_targets SemuaKaryawanAktif jan31 (py " cuti ")
              t0 db_example) as (_ & _ & H).
  - unfold db_example. reach.
  - reflexivity.
  - exact I.
  - apply Forall_forall. intros i Hi. apply H. vm_compute. exact Hi.
Defined.

(** X11: the "Batalkan LIBUR" button never raises; afterwards no targeted
    employee has an override row on the date, and the override rows of
    every other pair and the employee table are as before. *)
Theorem btn_cancel_libur_clears_targets (mode : target_mode) (wd : date) (d : db) :
  selectable mode d ->
  fst (btn_cancel_libur mode wd d) = Ok tt
  /\ employees (run (btn_cancel_libur mode wd) d) = employees d
  /\ (forall i, In i (target_ids mode (get_active_employees d)) ->
                rows_of_pair i wd (run (btn_cancel_libur mode wd) d) = [])
  /\ (forall r, In r (attendance_overrides d) ->
                ~ (In (employee_id r) (target_ids mode (get_active_employees d))
                   /\ work_date r = isoformat wd) ->
                In r (attendance_overrides (run (btn_cancel_libur mode wd) d))).
Proof.
  intros S. unfold run, btn_cancel_libur. cbv zeta.
  destruct (get_active_employees d) as [|a l] eqn:E; cbn [is_empty].
  - cbn [fst snd]. split; [reflexivity|]. split; [reflexivity|].
    split; [|auto].
    destruct mode as [emp|]; cbn [selectable target_ids map] in *;
      [rewrite E in S; destruct S|intros i []].
  - rewrite clear_override_run.
    cbn [fst snd employees attendance_overrides].
    split; [reflexivity|]. split; [reflexivity|]. split.
    + intros i Hi. unfold rows_of_pair. cbn [attendance_overrides].
      rewrite filter_filter.
      match goal with |- filter ?p ?l = [] => induction l as [|r rows IH] end;
        [reflexivity|].
      cbn [filter]. rewrite IH.
      destruct (same_pair i (isoformat wd) r) eqn:P; [|reflexivity].
      apply andb_true_iff in P as [P1 P2]. unfold cleared. rewrite P2.
      replace (existsb _ _) with true; [reflexivity|].
      symmetry. apply existsb_exists. exists i. split; [exact Hi|exact P1].
    + intros r Hr N. apply filter_In. split; [exact Hr|].
      apply negb_true_iff, not_true_iff_false. intros C.
      apply andb_true_iff in C as [(i & Hi & Ei%Z.eqb_eq)%existsb_exists
                                   Ew%str_eqb_eq].
      apply N. split; [now rewrite Ei|exact Ew].
Qed.

Lemma btn_cancel_libur_clears_targets_witness :
  Forall (fun i => rows_of_pair i jan1
                     (run (btn_cancel_libur SemuaKaryawanAktif jan1) db_example)
                   = [])
         [1; 2].
Proof.
  destruct (btn_cancel_libur_clears_targets SemuaKaryawanAktif jan1 db_example)
    as (_ & _ & H & _).
  - exact I.
  - apply Forall_forall. intros i Hi. apply H. vm_compute. exact Hi.
Defined.

(** ** Status changes and new employees *)


Lemma run_btn_save_status (st : state_option) (id : Z) (d : db) :
  run (btn_save_status st id) d
  = mkdb (map (fun e =>
                 if emp_id e =? id
                 then mkemployee (emp_id e) (full_name e) (employee_code e)
                                 (match st with Aktif => 1 | Nonaktif => 0 end)
                                 (emp_created_at e)
                 else e) (employees d))
         (attendance_overrides d) (seq_employees d) (seq_overrides d).
Proof. unfold btn_save_status. now rewrite run_execute. Qed.



Lemma sort_by_length {A : Type} (key : A -> str) (l : list A) :
  List.length (sort_by key l) = List.length l.
Proof. apply Permutation_length, sort_by_perm. Qed.

(** X13: in a reachable state, adding an employee with a non-blank name
    and a free code puts one more row into every report: it carries the
    stripped name and code, no day off and as many days of presence as the
    range has days. *)
Theorem btn_add_emp_then_report (name code now : str) (s e : date) (d : db) :
  reachable d -> strip name <> [] -> ~ code_taken code d ->
  In (mkreport (strip name) (or_none (strip code))
               (days_between s e + 1) (days_between s e + 1) 0)
     (build_report s e (run (btn_add_emp name code now) d))
  /\ List.length (build_report s e (run (btn_add_emp name code now) d))
     = S (List.length (build_report s e d)).
Proof.
  intros R Nn Nc. apply reachable_consistent in R as (_ & Rf & _).
  set (id := next_rowid (seq_employees d) (map emp_id (employees d))).
  set (new := mkemployee id (strip name) (or_none (strip code)) 1 now).
  assert (run (btn_add_emp name code now) d
          = mkdb (employees d ++ [new]) (attendance_overrides d) id
                 (seq_overrides d)) as ->.
  { assert (is_empty (strip name) = false) as En
        by (destruct (strip name); [congruence|reflexivity]).
    unfold run, btn_add_emp, execute, insert_employee. rewrite En.
    destruct (match or_none (strip code) with
              | Some c0 => code_in_use c0 d
              | None => false
              end) eqn:U; [|reflexivity].
    apply unique_check_spec in U. contradiction. }
  rewrite !build_report_rows, !length_map. split.
  - apply in_map_iff. exists (select_active new). split.
    + unfold row_of. cbn [select_active a_id a_full_name a_employee_code new
                          emp_id full_name employee_code].
      assert (count_between (isoformat s) (isoformat e)
                (mkdb (employees d ++ [new]) (attendance_overrides d) id
                      (seq_overrides d)) id = 0) as ->.
      { rewrite count_between_filter. cbn [attendance_overrides].
        replace (filter _ (attendance_overrides d)) with (@nil override);
          [reflexivity|].
        symmetry.
        match goal with |- filter ?p _ = _ =>
          assert (forall r, In r (attendance_overrides d) -> p r = false) as F
        end.
        { intros r Hr. apply Rf in Hr.
          pose proof (proj2 (next_rowid_above (seq_employees d)
                               (map emp_id (employees d))) _ Hr) as Lt.
          fold id in Lt.
          replace (employee_id r =? id) with false; [reflexivity|].
          symmetry. apply Z.eqb_neq. lia. }
        induction (attendance_overrides d) as [|r l IH]; [reflexivity|].
        cbn [filter]. rewrite F by now left.
        apply IH. intros r' Hr'. apply F. now right. }
      f_equal. lia.
    + apply In_get_active_employees. exists new.
      cbn [employees]. rewrite in_app_iff. cbn. auto.
  - unfold get_active_employees. cbn [employees].
    rewrite !length_map, !sort_by_length, filter_app, length_app.
    cbn [filter new is_active]. cbn. lia.
Qed.

Lemma btn_add_emp_then_report_witness :
  In (mkreport (py "Citra Dewi") None 31 31 0)
     (build_report jan1 jan31
        (run (btn_add_emp (py " Citra Dewi") (py "  ") t0) db_example)).
Proof.
  apply (btn_add_emp_then_report (py " Citra Dewi") (py "  ") t0 jan1 jan31
           db_example).
  - unfold db_example. reach.
  - vm_compute. discriminate.
  - intros [N _]. apply N. reflexivity.
Defined.

(** ** The override listing *)

Section SortWith.
Context {A : Type} (leb : A -> A -> bool).
Hypothesis leb_total : forall x y, leb x y = true \/ leb y x = true.
Hypothesis leb_trans :
  forall x y z, leb x y = true -> leb y z = true -> leb x z = true.

Lemma insert_with_perm (x : A) (l : list A) :
  Permutation (insert_with leb x l) (x :: l).
Proof.
  induction l as [|y l IH]; cbn [insert_with]; [reflexivity|].
  destruct (leb x y); [reflexivity|].
  rewrite IH. apply perm_swap.
Qed.

Lemma sort_with_perm (l : list A) : Permutation (sort_with leb l) l.
Proof.
  induction l as [|x l IH]; cbn [sort_with]; [reflexivity|].
  rewrite insert_with_perm. now apply perm_skip.
Qed.

Lemma sort_with_sorted (l : list A) :
  StronglySorted (fun x y => leb x y = true) (sort_with leb l).
Proof.
  induction l as [|x l IH]; cbn [sort_with]; [constructor|].
  induction IH as [|y s Hs IHs Hy]; cbn [insert_with].
  - repeat constructor.
  - destruct (leb x y) eqn:E.
    + constructor; [now constructor|].
      constructor; [exact E|].
      eapply Forall_impl; [|exact Hy]. intros z. now apply leb_trans.
    + constructor; [exact IHs|].
      eapply Permutation_Forall; [symmetry; apply insert_with_perm|].
      constructor; [|exact Hy].
      destruct (leb_total x y); [congruence|assumption].
Qed.
End SortWith.

Lemma str_compare_gt_lt (a b : str) :
  str_compare a b = Gt <-> str_compare b a = Lt.
Proof.
  rewrite (str_compare_antisym a b). destruct (str_compare a b); cbn;
    split; congruence.
Qed.

Lemma listing_leb_spec (x y : override * employee) :
  listing_leb x y = true
  <-> listing_order (select_listing x) (select_listing y).
Proof.
  unfold listing_leb, listing_order, select_listing, str_le.
  cbn [l_work_date l_full_name].
  destruct (str_compare (work_date (fst x)) (work_date (fst y))) eqn:C.
  - apply str_compare_eq in C. rewrite C, str_compare_refl.
    split; [auto|]. intros [?|[_ ?]]; [discriminate|assumption].
  - split; [discriminate|].
    intros [L|[E _]].
    + apply str_compare_gt_lt in L. congruence.
    + rewrite E, str_compare_refl in C. discriminate.
  - apply str_compare_gt_lt in C. split; auto.
Qed.

Lemma listing_leb_total (x y : override * employee) :
  listing_leb x y = true \/ listing_leb y x = true.
Proof.
  unfold listing_leb.
  rewrite (str_compare_antisym (work_date (fst x)) (work_date (fst y))).
  destruct (str_compare (work_date (fst x)) (work_date (fst y))); cbn; auto.
  apply str_leb_total.
Qed.

Lemma listing_leb_trans (x y z : override * employee) :
  listing_leb x y = true -> listing_leb y z = true -> listing_leb x z = true.
Proof.
  rewrite !listing_leb_spec. unfold listing_order, str_le.
  intros [L1|[E1 N1]] [L2|[E2 N2]].
  - left. eapply str_compare_trans_lt; [exact L2|]. congruence.
  - left. now rewrite <- E2.
  - left. now rewrite E1.
  - right. split; [congruence|]. eapply str_leb_trans; eauto.
Qed.

(** With distinct identifiers, the join finds one employee per key. *)
Lemma filter_emp_id_unique (emps : list employee) (k : Z) :
  NoDup (map emp_id emps) -> In k (map emp_id emps) ->
  exists e, filter (fun e => emp_id e =? k) emps = [e]
            /\ In e emps /\ emp_id e = k.
Proof.
  induction emps as [|x l IH]; cbn [map]; [intros _ []|].
  intros [Hx N]%NoDup_cons_iff Hk. cbn [filter].
  destruct (emp_id x =? k) eqn:E.
  - apply Z.eqb_eq in E. exists x. split; [|split; [now left|exact E]].
    f_equal.
    match goal with |- filter ?p l = [] =>
      assert (forall e, In e l -> p e = false) as F
    end.
    { intros e He. apply Z.eqb_neq. intros E'. apply Hx.
      rewrite E, <- E'. now apply in_map. }
    clear -F. induction l as [|e l IHl]; [reflexivity|].
    cbn [filter]. rewrite F by now left. apply IHl. intros e' He'. apply F.
    now right.
  - apply Z.eqb_neq in E. destruct Hk as [Hk|Hk]; [congruence|].
    destruct (IH N Hk) as (e & F & He & Ee).
    exists e. split; [exact F|]. split; [now right|exact Ee].
Qed.

Lemma join_employees_complete (ovs : list override) (emps : list employee) :
  NoDup (map emp_id emps) ->
  (forall r, In r ovs -> In (employee_id r) (map emp_id emps)) ->
  map fst (join_employees ovs emps) = ovs
  /\ Forall (fun p => In (snd p) emps /\ emp_id (snd p) = employee_id (fst p))
            (join_employees ovs emps).
Proof.
  intros N. unfold join_employees.
  induction ovs as [|r ovs IH]; intros H; [split; [reflexivity|constructor]|].
  cbn [flat_map].
  destruct (filter_emp_id_unique emps (employee_id r) N) as (e & F & He & Ee);
    [apply H; now left|].
  destruct IH as [IH1 IH2]; [intros r' Hr'; apply H; now right|].
  rewrite F. cbn [map app fst]. split; [now rewrite IH1|].
  constructor; [split; assumption|exact IH2].
Qed.

Lemma StronglySorted_map {A B : Type} (R : A -> A -> Prop) (Q : B -> B -> Prop)
  (f : A -> B) (l : list A) :
  StronglySorted R l -> (forall x y, R x y -> Q (f x) (f y)) ->
  StronglySorted Q (map f l).
Proof.
  intros S H. induction S as [|x l Hl IH Hx]; cbn [map]; constructor;
    [exact IH|].
  apply Forall_map. eapply Forall_impl; [|exact Hx]. intros y. apply H.
Qed.

(** X14: in a reachable state the override listing shows every override
    row exactly once, joined with the employee it refers to, newest date
    first and, among equal dates, in ascending order of the employee's
    name. *)
Theorem list_overrides_complete_sorted (d : db) :
  reachable d ->
  Permutation (map fst (listed_pairs d)) (attendance_overrides d)
  /\ Forall (fun p => In (snd p) (employees d)
                      /\ emp_id (snd p) = employee_id (fst p))
            (listed_pairs d)
  /\ list_overrides d = map select_listing (listed_pairs d)
  /\ List.length (list_overrides d) = List.length (attendance_overrides d)
  /\ StronglySorted listing_order (list_overrides d).
Proof.
  intros R.
  pose proof (reachable_keys d R) as (N & _).
  pose proof (reachable_consistent d R) as (_ & Rf & _).
  destruct (join_employees_complete (attendance_overrides d) (employees d) N Rf)
    as [J1 J2].
  pose proof (sort_with_perm listing_leb
                (join_employees (attendance_overrides d) (employees d))) as P.
  assert (Permutation (map fst (listed_pairs d)) (attendance_overrides d)) as P1.
  { unfold listed_pairs. rewrite <- J1 at 2. now apply Permutation_map. }
  split; [exact P1|]. split; [|split; [reflexivity|split]].
  - unfold listed_pairs. eapply Permutation_Forall; [symmetry; exact P|exact J2].
  - unfold list_overrides. rewrite length_map.
    rewrite <- (length_map fst). now apply Permutation_length.
  - unfold list_overrides, listed_pairs.
    pose proof (sort_with_sorted listing_leb listing_leb_total listing_leb_trans
                  (join_employees (attendance_overrides d) (employees d))) as S.
    apply (StronglySorted_map _ _ _ _ S).
    intros p q. apply listing_leb_spec.
Qed.

Lemma list_overrides_complete_sorted_witness :
  map l_work_date (list_overrides db_example)
  = [py "2024-02-09"; py "2024-01-15"; py "2024-01-01"; py "2024-01-01"]
  /\ StronglySorted listing_order (list_overrides db_example).
Proof.
  split; [reflexivity|].
  apply (list_overrides_complete_sorted db_example).
  unfold db_example. reach.
Defined.

(** ** The report tab *)

Lemma year_length (y : Z) :
  days_between (mkdate y 1 1) (mkdate y 12 31) + 1 = days_in_year y.
Proof.
  unfold days_between, toordinal. cbn [year month day].
  pose proof (days_before_month_december y) as D.
  replace (days_in_month y 12) with 31 in D by reflexivity.
  replace (days_before_month y 1) with 0 by reflexivity. lia.
Qed.

Lemma date_new_year_out_of_range (y m d : Z) :
  INT_MIN <= y <= INT_MAX -> INT_MIN <= m <= INT_MAX ->
  INT_MIN <= d <= INT_MAX -> ~ 1 <= y <= 9999 ->
  date_new y m d
  = Raise (ValueError ("year " ++ decimal y ++ " is out of range")).
Proof.
  intros Hy Hm Hd N. unfold date_new, MINYEAR, MAXYEAR.
  rewrite !as_c_int_ok by assumption. cbn [rbind].
  replace ((1 <=? y) && (y <=? 9999)) with false; [reflexivity|].
  symmetry. apply not_true_iff_false.
  rewrite andb_true_iff, !Z.leb_le. exact N.
Qed.

Lemma date_new_year_overflow (y m d : Z) :
  ~ INT_MIN <= y <= INT_MAX ->
  exists msg, date_new y m d = Raise (OverflowError msg).
Proof.
  intros N. unfold date_new, as_c_int.
  destruct ((y <? LONG_MIN) || (LONG_MAX <? y)); cbn [rbind]; [eauto|].
  destruct (INT_MAX <? y) eqn:E1; cbn [rbind]; [eauto|].
  destruct (y <? INT_MIN) eqn:E2; cbn [rbind]; [eauto|].
  apply Z.ltb_ge in E1, E2. lia.
Qed.

(** X15: for a year from 1 to 9999 the yearly report is the report of the
    range 1 January .. 31 December, and every row has total_days = 366 in a
    leap year and 365 otherwise; for any other year that fits a C int the
    date constructor raises the ValueError that names the year, and for a
    year beyond the C int range it raises an OverflowError. *)
Theorem rekap_tahunan_total_days (y : Z) (d : db) :
  (1 <= y <= 9999 ->
   rekap_tahunan y d = Ok (build_report (mkdate y 1 1) (mkdate y 12 31) d)
   /\ Forall (fun row => total_days row = if is_leap y then 366 else 365)
             (build_report (mkdate y 1 1) (mkdate y 12 31) d))
  /\ (INT_MIN <= y <= INT_MAX -> ~ 1 <= y <= 9999 ->
      rekap_tahunan y d
      = Raise (ValueError ("year " ++ decimal y ++ " is out of range")))
  /\ (~ INT_MIN <= y <= INT_MAX ->
      exists msg, rekap_tahunan y d = Raise (OverflowError msg)).
Proof.
  unfold rekap_tahunan. split; [|split].
  - intros Hy. rewrite year_range_ok by exact Hy. cbn [rbind fst snd].
    split; [reflexivity|]. rewrite build_report_rows.
    apply Forall_map, Forall_forall. intros a _.
    unfold row_of. cbn [total_days]. apply year_length.
  - intros Hi N. unfold year_range.
    rewrite date_new_year_out_of_range
      by (assumption || (unfold INT_MIN, INT_MAX; lia)).
    reflexivity.
  - intros N. unfold year_range.
    destruct (date_new_year_overflow y 1 1 N) as [msg ->]. cbn [rbind]. eauto.
Qed.

Lemma rekap_tahunan_total_days_witness :
  Forall (fun row => total_days row = 366)
         (build_report (mkdate 2024 1 1) (mkdate 2024 12 31) db_example)
  /\ rekap_tahunan 10000 db_example
     = Raise (ValueError "year 10000 is out of range")
  /\ exists msg, rekap_tahunan 2147483648 db_example
                 = Raise (OverflowError msg).
Proof.
  split; [|split].
  - apply (proj1 (rekap_tahunan_total_days 2024 db_example)). lia.
  - apply (proj1 (proj2 (rekap_tahunan_total_days 10000 db_example)));
      unfold INT_MIN, INT_MAX; lia.
  - apply (proj2 (proj2 (rekap_tahunan_total_days 2147483648 db_example))).
    unfold INT_MIN, INT_MAX. lia.
Defined.

(** X16: for every month of the years 1 to 9999 other than December 9999,
    the date that month_range binds to [end] before converting it is a
    valid date, the last day of that month, one day before the first day
    of the next month; for December 9999 the constructor of the following
    1 January raises the ValueError "year 10000 is out of range". *)
Theorem month_range_end_of_month (y m : Z) :
  1 <= y <= 9999 -> 1 <= m <= 12 ->
  (y < 9999 \/ m < 12 ->
   month_range_end y m = Ok (PyDate (mkdate y m (days_in_month y m)))
   /\ valid_date (mkdate y m (days_in_month y m)) = true
   /\ toordinal (mkdate y m (days_in_month y m))
      = toordinal (if m =? 12 then mkdate (y + 1) 1 1 else mkdate y (m + 1) 1)
        - 1
   /\ days_between (mkdate y m 1) (mkdate y m (days_in_month y m)) + 1
      = days_in_month y m)
  /\ (y = 9999 -> m = 12 ->
      month_range_end y m = Raise (ValueError "year 10000 is out of range")).
Proof.
  intros Hy Hm. split.
  - intros Hl. split; [now apply month_range_end_last_day|].
    pose proof (days_in_month_pos y m Hm) as P.
    split; [|split].
    + unfold valid_date, MINYEAR, MAXYEAR. cbn [year month day].
      rewrite !andb_true_iff, !Z.leb_le. lia.
    + unfold toordinal. destruct (m =? 12) eqn:E; cbn [year month day].
      * apply Z.eqb_eq in E. subst m.
        pose proof (days_before_year_succ y) as S.
        pose proof (days_before_month_december y) as D.
        replace (days_before_month (y + 1) 1) with 0 by reflexivity. lia.
      * apply Z.eqb_neq in E.
        rewrite (days_before_month_next y m) by lia. lia.
    + unfold days_between, toordinal. cbn [year month day]. lia.
  - intros -> ->. reflexivity.
Qed.

Lemma month_range_end_of_month_witness :
  month_range_end 2024 2 = Ok (PyDate (mkdate 2024 2 29))
  /\ month_range_end 9999 12 = Raise (ValueError "year 10000 is out of range").
Proof.
  split.
  - apply (proj1 (month_range_end_of_month 2024 2 ltac:(lia) ltac:(lia))). lia.
  - apply (proj2 (month_range_end_of_month 9999 12 ltac:(lia) ltac:(lia)));
      reflexivity.
Defined.

Lemma month_range_attribute_error (y m : Z) :
  1 <= y <= 9999 -> 1 <= m <= 12 -> y < 9999 \/ m < 12 ->
  month_range y m
  = Raise (AttributeError
             "'datetime.date' object has no attribute 'to_pydatetime'").
Proof.
  intros Hy Hm Hl. unfold month_range.
  rewrite date_new_ok by (apply valid_first_of_month; assumption).
  cbn [rbind]. now rewrite month_range_end_last_day.
Qed.

(** X17: with at least one active employee the report tab never gets to
    show a report: for the years 2000 to 2100 and months 1 to 12 that its
    number inputs allow, the monthly range ends in the AttributeError of
    month_range, before the yearly report is computed; without active
    employees it shows the warning. *)
Theorem tab3_never_reports (y m y2 : Z) (d : db) :
  (get_active_employees d = [] -> tab3 y m y2 d = Ok tab3_warning)
  /\ (get_active_employees d <> [] ->
      2000 <= y <= 2100 -> 1 <= m <= 12 ->
      tab3 y m y2 d
      = Raise (AttributeError
                 "'datetime.date' object has no attribute 'to_pydatetime'"))
  /\ (forall rep_m rep_y, tab3 y m y2 d <> Ok (tab3_reports rep_m rep_y)).
Proof.
  unfold tab3, rekap_bulanan.
  destruct (get_active_employees d) as [|a l]; cbn [is_empty].
  - split; [reflexivity|]. split; [congruence|discriminate].
  - split; [discriminate|]. split.
    + intros _ Hy Hm. rewrite month_range_attribute_error by lia. reflexivity.
    + intros rep_m rep_y. destruct (month_range_never_returns y m) as [e ->].
      cbn [rbind]. discriminate.
Qed.

Lemma tab3_never_reports_witness :
  tab3 2024 1 2024 db_example
  = Raise (AttributeError
             "'datetime.date' object has no attribute 'to_pydatetime'")
  /\ tab3 2024 1 2024 init_db = Ok tab3_warning.
Proof.
  split.
  - apply (tab3_never_reports 2024 1 2024 db_example).
    + vm_compute. discriminate.
    + lia.
    + lia.
  - apply (tab3_never_reports 2024 1 2024 init_db). reflexivity.
Defined.

(** ** Identity of employees *)

Lemma perform_extends (a : action) (d d1 : db) :
  extends d d1 -> extends d (perform a d1).
Proof.
  intros [S H]. unfold extends.
  destruct a as [name code now|st id|ids wd notes now|ids wd|id];
    cbn [perform].
  - destruct (run_btn_add_emp name code now d1) as [->|(i & H1 & H2 & ->)];
      [now split|].
    cbn [employees seq_employees]. split; [lia|].
    intros e' [He|[<-|[]]]%in_app_iff; [now apply H|].
    cbn [emp_id]. lia.
  - rewrite run_btn_save_status. cbn [employees seq_employees].
    split; [exact S|].
    intros e' (e0 & <- & H0)%in_map_iff.
    destruct (emp_id e0 =? id); [|now apply H].
    cbn [emp_id]. intros B. destruct (H e0 H0 B) as (e & He & I).
    exists e. split; [exact He|exact I].
  - destruct (set_libur_frame ids wd notes now d1) as [-> ->]. now split.
  - destruct (clear_override_frame ids wd d1) as [-> ->]. now split.
  - rewrite run_execute. cbn [delete_employee employees seq_employees].
    split; [exact S|]. intros e' [He _]%filter_In. now apply H.
Qed.

(** X18: an identifier is never given to a second employee.  Whatever
    actions follow a state, a row that carries an identifier handed out by
    then (one not above the counter) is a row of that state: it has the
    same name, code and creation time, only its flag may differ; and the
    counter never goes back. *)
Theorem employee_identity_stable (acts : list action) (d : db) (e' : employee) :
  In e' (employees (perform_all acts d)) ->
  emp_id e' <= seq_employees d ->
  seq_employees d <= seq_employees (perform_all acts d)
  /\ exists e, In e (employees d) /\ same_identity e e'.
Proof.
  assert (forall d1, extends d d1 -> extends d (perform_all acts d1)) as E.
  { unfold perform_all. induction acts as [|a acts IH]; intros d1 X;
      cbn [fold_left]; [exact X|].
    apply IH. now apply perform_extends. }
  destruct (E d) as [S H].
  - split; [lia|]. intros e He _. exists e. split; [exact He|].
    repeat split.
  - intros He B. split; [exact S|]. now apply H.
Qed.

Lemma employee_identity_stable_witness :
  exists e, In e (employees db_example)
            /\ same_identity e
                 (mkemployee 2 (py "Budi Santoso") (Some (py "EMP-002")) 0 t0).
Proof.
  apply (employee_identity_stable
           [SaveStatus Nonaktif 2; DeleteEmployee 1;
            AddEmp (py "Citra") (py "") t0]
           db_example
           (mkemployee 2 (py "Budi Santoso") (Some (py "EMP-002")) 0 t0)).
  - vm_compute. auto.
  - vm_compute. discriminate.
Defined.

(** ** Reports of adjacent ranges *)

Lemma length_filter_orb {A : Type} (p q : A -> bool) (l : list A) :
  (forall x, In x l -> p x && q x = false) ->
  List.length (filter (fun x => p x || q x) l)
  = (List.length (filter p l) + List.length (filter q l))%nat.
Proof.
  induction l as [|x l IH]; intros H; [reflexivity|].
  cbn [filter]. pose proof (H x (or_introl eq_refl)) as Hx.
  specialize (IH (fun y Hy => H y (or_intror Hy))).
  destruct (p x), (q x); cbn [orb List.length]; try discriminate; lia.
Qed.

Lemma count_between_adjacent (s m m' e : date) (d : db) (k : Z) :
  iso_dates d ->
  valid_date s = true -> valid_date m = true ->
  valid_date m' = true -> valid_date e = true ->
  toordinal m' = toordinal m + 1 ->
  toordinal s <= toordinal m' -> toordinal m <= toordinal e ->
  count_between (isoformat s) (isoformat e) d k
  = count_between (isoformat s) (isoformat m) d k
    + count_between (isoformat m') (isoformat e) d k.
Proof.
  intros I Vs Vm Vm' Ve Hm Hs He. rewrite !count_between_filter.
  rewrite <- Nat2Z.inj_add, <- length_filter_orb.
  - do 2 f_equal. apply filter_ext_in. intros r Hr.
    destruct (I r Hr) as (w & Vw & Ew).
    rewrite !(between_isoformat _ _ w r) by assumption.
    unfold date_in_range.
    destruct (employee_id r =? k); cbn [andb orb]; [|reflexivity].
    destruct (toordinal s <=? toordinal w) eqn:E1,
             (toordinal w <=? toordinal e) eqn:E2,
             (toordinal w <=? toordinal m) eqn:E3,
             (toordinal m' <=? toordinal w) eqn:E4;
      cbn [andb orb]; try reflexivity; exfalso;
      rewrite ?Z.leb_le, ?Z.leb_gt in *; lia.
  - intros r Hr. destruct (I r Hr) as (w & Vw & Ew).
    rewrite !(between_isoformat _ _ w r) by assumption.
    unfold date_in_range.
    destruct (employee_id r =? k); cbn [andb]; [|reflexivity].
    destruct (toordinal w <=? toordinal m) eqn:E3,
             (toordinal m' <=? toordinal w) eqn:E4;
      rewrite ?andb_false_r, ?andb_false_l; try reflexivity; exfalso;
      rewrite ?Z.leb_le, ?Z.leb_gt in *; lia.
Qed.

(** X19: in a reachable state the report of a range is the sum of the
    reports of two adjacent ranges that make it up: for every active
    employee the total, present and absent days of start..end are those of
    start..m plus those of m'..end, when m' is the day after m. *)
Theorem build_report_adjacent_ranges (s m m' e : date) (d : db) :
  reachable d ->
  valid_date s = true -> valid_date m = true ->
  valid_date m' = true -> valid_date e = true ->
  toordinal m' = toordinal m + 1 ->
  toordinal s <= toordinal m' -> toordinal m <= toordinal e ->
  build_report s e d
  = map (fun a => add_rows (row_of s m d a) (row_of m' e d a))
        (get_active_employees d).
Proof.
  intros R Vs Vm Vm' Ve Hm Hs He.
  apply reachable_consistent in R as (_ & _ & I).
  rewrite build_report_rows. apply map_ext. intros a.
  unfold row_of, add_rows, days_between. cbv zeta.
  cbn [r_full_name r_employee_code total_days masuk_days libur_days].
  rewrite (count_between_adjacent s m m' e d (a_id a)) by assumption.
  f_equal; lia.
Qed.

Lemma build_report_adjacent_ranges_witness :
  build_report jan1 (mkdate 2024 2 29) db_example
  = map (fun a => add_rows (row_of jan1 jan31 db_example a)
                           (row_of (mkdate 2024 2 1) (mkdate 2024 2 29)
                                   db_example a))
        (get_active_employees db_example).
Proof.
  apply (build_report_adjacent_ranges jan1 jan31 (mkdate 2024 2 1)
           (mkdate 2024 2 29) db_example).
  - unfold db_example. reach.
  - reflexivity.
  - reflexivity.
  - reflexivity.
  - reflexivity.
  - reflexivity.
  - vm_compute. discriminate.
  - vm_compute. discriminate.
Defined.
